(** * The judge-orchestration core of llm-as-judge

    A shallow embedding of [app/judges.py] and [app/schemas/models.py]:
    the pydantic models [Judge] and [Assembly] with their validators, the
    evaluator [ConcreteJudge], the coordinator [SuperJudge] with its
    notification channel, the plan that fans a prompt out with
    [asyncio.gather], and [JudgeOrchestrator.run_evaluation].

    Python objects that are mutated through shared references (the
    coordinator, and the sub-judges whose [mediator] field points back to
    it) live in an explicit heap; exceptions are values of [exn] carried by
    [result]; the order in which concurrently running evaluations complete
    is an explicit scheduler input. *)

From Stdlib Require Import Ascii String List ZArith Lia Permutation.
From stdpp Require Import base list strings pretty gmap.

(** ** Exceptions and results

    [UpstreamError] is what the LLM capability raises.  [Dangling] is the
    use of a reference that names no object: no Python program holds such
    a reference, and the heap operations below answer with it so that a
    result is never made up. *)

Inductive exn :=
| ValueError (msg : string)
| AttributeError (msg : string)
| KeyError (key : string)
| ValidationError (errors : list string)
| UpstreamError (msg : string)
| Dangling.

Inductive result (A : Type) :=
| Ok (a : A)
| Err (e : exn).

Arguments Ok {A} a.
Arguments Err {A} e.

Definition rbind {A B} (r : result A) (k : A -> result B) : result B :=
  match r with
  | Ok a => k a
  | Err e => Err e
  end.

Notation "x <-! r ;; k" := (rbind r (fun x => k))
  (at level 100, r at next level, right associativity).

Definition is_Ok {A} (r : result A) : bool :=
  match r with Ok _ => true | Err _ => false end.

(** ** Python text

    A [string] stands for a Python [str] whose code points are below 256;
    one [ascii] is one code point. *)

Module Py.

Definition NL : string := String (ascii_of_nat 10) "".

(** [str.isspace] on one code point below 256. *)
Definition isspace (c : ascii) : bool :=
  let n := nat_of_ascii c in
  ((9 <=? n) && (n <=? 13)) || ((28 <=? n) && (n <=? 32))
  || (n =? 133) || (n =? 160).

Fixpoint lstrip_chars (l : list ascii) : list ascii :=
  match l with
  | c :: l' => if isspace c then lstrip_chars l' else l
  | [] => []
  end.

(** [s.strip()] *)
Definition strip (s : string) : string :=
  string_of_list_ascii
    (rev (lstrip_chars (rev (lstrip_chars (list_ascii_of_string s))))).

(** [sep.join(xs)] *)
Fixpoint join (sep : string) (xs : list string) : string :=
  match xs with
  | [] => ""
  | [x] => x
  | x :: xs' => x +:+ sep +:+ join sep xs'
  end.

(** [s.startswith(p)] *)
Definition startswith (s p : string) : bool := String.prefix p s.

(** [needle in hay] on two strings *)
Fixpoint contains (needle hay : string) : bool :=
  String.prefix needle hay ||
  match hay with
  | EmptyString => false
  | String _ hay' => contains needle hay'
  end.

Definition len (s : string) : nat := String.length s.

(** truth value of a string: [bool(s)] *)
Definition truthy (s : string) : bool :=
  match s with EmptyString => false | _ => true end.

(** [a or b] on strings *)
Definition or_else (a b : string) : string := if truthy a then a else b.

End Py.

(** ** JSON text, as [json.loads] reads it

    [json.loads] belongs to the Python standard library, not to the
    repository; this is its decoder for the default options ([strict]
    strings, the constants [NaN], [Infinity] and [-Infinity] accepted).
    A number keeps its lexeme, a decoded string is a list of code points
    (an escape [\uXXXX] can denote a code point above 255), an object keeps
    its members in source order.  The interpreter's resource limits
    (recursion depth, digits of an integer) are not part of the model. *)

Module Json.

Definition ustring := list N.

Definition ustr (s : string) : ustring :=
  map N_of_ascii (list_ascii_of_string s).

#[local] Unset Elimination Schemes.

Inductive json :=
| JNull
| JBool (b : bool)
| JNumber (lexeme : string)
| JConst (name : string)
| JString (s : ustring)
| JArray (items : list json)
| JObject (members : list (ustring * json)).

#[local] Set Elimination Schemes.

(** Outcome of scanning a prefix of the input. *)
Inductive scan (A : Type) :=
| Scanned (a : A) (rest : list ascii)
| Fail (msg : string)
| OutOfFuel.

Arguments Scanned {A} a rest.
Arguments Fail {A} msg.
Arguments OutOfFuel {A}.

Definition code (c : ascii) : nat := nat_of_ascii c.
Definition chr (n : nat) (c : ascii) : bool := code c =? n.

Definition dquote : nat := 34.
Definition backslash : nat := 92.

(** The decoder's whitespace: space, tab, line feed, carriage return. *)
Definition is_ws (c : ascii) : bool :=
  chr 32 c || chr 9 c || chr 10 c || chr 13 c.

Fixpoint skip_ws (l : list ascii) : list ascii :=
  match l with
  | c :: l' => if is_ws c then skip_ws l' else l
  | [] => []
  end.

Definition is_digit (c : ascii) : bool := (48 <=? code c) && (code c <=? 57).

Definition hexval (c : ascii) : option N :=
  let n := code c in
  if (48 <=? n) && (n <=? 57) then Some (N.of_nat (n - 48))
  else if (65 <=? n) && (n <=? 70) then Some (N.of_nat (n - 55))
  else if (97 <=? n) && (n <=? 102) then Some (N.of_nat (n - 87))
  else None.

Definition hex4 (a b c d : ascii) : option N :=
  match hexval a, hexval b, hexval c, hexval d with
  | Some x, Some y, Some z, Some w => Some (((x * 16 + y) * 16 + z) * 16 + w)%N
  | _, _, _, _ => None
  end.

(** The one-character escapes after a backslash. *)
Definition unescape (c : ascii) : option N :=
  let n := code c in
  if n =? 34 then Some 34%N          (* quote *)
  else if n =? 92 then Some 92%N     (* backslash *)
  else if n =? 47 then Some 47%N     (* slash *)
  else if n =? 98 then Some 8%N      (* b *)
  else if n =? 102 then Some 12%N    (* f *)
  else if n =? 110 then Some 10%N    (* n *)
  else if n =? 114 then Some 13%N    (* r *)
  else if n =? 116 then Some 9%N     (* t *)
  else None.

Definition is_high_surrogate (u : N) : bool := ((55296 <=? u) && (u <=? 56319))%N.
Definition is_low_surrogate (u : N) : bool := ((56320 <=? u) && (u <=? 57343))%N.

(** A low surrogate escape at the head of the input, if there is one. *)
Definition low_surrogate_escape (l : list ascii) : option N :=
  match l with
  | e :: u :: a :: b :: c :: d :: _ =>
      if chr backslash e && chr 117 u then
        match hex4 a b c d with
        | Some u2 => if is_low_surrogate u2 then Some u2 else None
        | None => None
        end
      else None
  | _ => None
  end.

(** [scanstring], entered just after the opening quote. *)
Fixpoint py_scanstring (l : list ascii) : scan ustring :=
  match l with
  | [] => Fail "Unterminated string starting at"
  | c :: l' =>
      if chr dquote c then Scanned [] l'
      else if chr backslash c then
        match l' with
        | [] => Fail "Unterminated string starting at"
        | e :: l'' =>
            if chr 117 e then
              match l'' with
              | a :: b :: c1 :: d :: r =>
                  match hex4 a b c1 d with
                  | None => Fail "Invalid \uXXXX escape"
                  | Some uni =>
                      match (if is_high_surrogate uni
                             then low_surrogate_escape r else None), r with
                      | Some uni2, _ :: _ :: _ :: _ :: _ :: _ :: r' =>
                          let cp := (65536 + (((uni - 55296) * 1024)
                                              + (uni2 - 56320)))%N in
                          match py_scanstring r' with
                          | Scanned s rest => Scanned (cp :: s) rest
                          | other => other
                          end
                      | _, _ =>
                          match py_scanstring r with
                          | Scanned s rest => Scanned (uni :: s) rest
                          | other => other
                          end
                      end
                  end
              | _ => Fail "Invalid \uXXXX escape"
              end
            else
              match unescape e with
              | None => Fail "Invalid \escape"
              | Some cp =>
                  match py_scanstring l'' with
                  | Scanned s rest => Scanned (cp :: s) rest
                  | other => other
                  end
              end
        end
      else if code c <? 32 then Fail "Invalid control character at"
      else
        match py_scanstring l' with
        | Scanned s rest => Scanned (N_of_ascii c :: s) rest
        | other => other
        end
  end.

(** The longest prefix of digits, and what follows it. *)
Fixpoint digits (l : list ascii) : list ascii * list ascii :=
  match l with
  | c :: l' =>
      if is_digit c then let '(ds, r) := digits l' in (c :: ds, r)
      else ([], l)
  | [] => ([], [])
  end.

(** The integer part of a number: an optional minus sign, then a single
    zero or a non-zero digit followed by digits. *)
Definition match_integer (l : list ascii) : option (list ascii * list ascii) :=
  let '(sign, l1) :=
    match l with
    | c :: l' => if chr 45 c then ([c], l') else ([], l)
    | [] => ([], l)
    end in
  match l1 with
  | c :: l2 =>
      if chr 48 c then Some (sign ++ [c], l2)
      else if is_digit c then
        let '(ds, r) := digits l2 in Some (sign ++ c :: ds, r)
      else None
  | [] => None
  end.

(** The optional fraction: a point followed by at least one digit. *)
Definition match_frac (l : list ascii) : list ascii * list ascii :=
  match l with
  | c :: l' =>
      if chr 46 c then
        match digits l' with
        | ([], _) => ([], l)
        | (ds, r) => (c :: ds, r)
        end
      else ([], l)
  | [] => ([], l)
  end.

(** The optional exponent: e or E, an optional sign, at least one digit. *)
Definition match_exp (l : list ascii) : list ascii * list ascii :=
  match l with
  | c :: l' =>
      if chr 101 c || chr 69 c then
        let '(sign, l1) :=
          match l' with
          | s :: l'' => if chr 45 s || chr 43 s then ([s], l'') else ([], l')
          | [] => ([], l')
          end in
        match digits l1 with
        | ([], _) => ([], l)
        | (ds, r) => (c :: sign ++ ds, r)
        end
      else ([], l)
  | [] => ([], l)
  end.

Definition match_number (l : list ascii) : option (string * list ascii) :=
  match match_integer l with
  | None => None
  | Some (i, r1) =>
      let '(f, r2) := match_frac r1 in
      let '(e, r3) := match_exp r2 in
      Some (string_of_list_ascii (i ++ f ++ e), r3)
  end.

(** [l] starts with the characters of [lit]: the literal and what follows. *)
Fixpoint literal (lit : list ascii) (l : list ascii) : option (list ascii) :=
  match lit, l with
  | [], _ => Some l
  | a :: lit', c :: l' => if Ascii.eqb a c then literal lit' l' else None
  | _ :: _, [] => None
  end.

Definition keyword (lit : string) (v : json) (l : list ascii) : option (json * list ascii) :=
  match literal (list_ascii_of_string lit) l with
  | Some r => Some (v, r)
  | None => None
  end.

(** The scalar values other than strings, tried in the decoder's order. *)
Definition scan_scalar (l : list ascii) : scan json :=
  match keyword "null" JNull l with
  | Some (v, r) => Scanned v r
  | None =>
  match keyword "true" (JBool true) l with
  | Some (v, r) => Scanned v r
  | None =>
  match keyword "false" (JBool false) l with
  | Some (v, r) => Scanned v r
  | None =>
  match match_number l with
  | Some (lx, r) => Scanned (JNumber lx) r
  | None =>
  match keyword "NaN" (JConst "NaN") l with
  | Some (v, r) => Scanned v r
  | None =>
  match keyword "Infinity" (JConst "Infinity") l with
  | Some (v, r) => Scanned v r
  | None =>
  match keyword "-Infinity" (JConst "-Infinity") l with
  | Some (v, r) => Scanned v r
  | None => Fail "Expecting value"
  end end end end end end end.

(** [scan_once], with [JSONObject] and [JSONArray]: [scan_members] is
    entered just after the opening quote of a key, [scan_items] at the
    first character of an item. *)
Fixpoint scan_once (fuel : nat) (l : list ascii) {struct fuel} : scan json :=
  match fuel with
  | 0 => OutOfFuel
  | S fuel' =>
      match l with
      | [] => Fail "Expecting value"
      | c :: l' =>
          if chr dquote c then
            match py_scanstring l' with
            | Scanned s r => Scanned (JString s) r
            | Fail m => Fail m
            | OutOfFuel => OutOfFuel
            end
          else if chr 123 c then
            match skip_ws l' with
            | d :: r =>
                if chr 125 d then Scanned (JObject []) r
                else if chr dquote d then
                  match scan_members fuel' r with
                  | Scanned ms r' => Scanned (JObject ms) r'
                  | Fail m => Fail m
                  | OutOfFuel => OutOfFuel
                  end
                else Fail "Expecting property name enclosed in double quotes"
            | [] => Fail "Expecting property name enclosed in double quotes"
            end
          else if chr 91 c then
            match skip_ws l' with
            | d :: r =>
                if chr 93 d then Scanned (JArray []) r
                else
                  match scan_items fuel' (d :: r) with
                  | Scanned xs r' => Scanned (JArray xs) r'
                  | Fail m => Fail m
                  | OutOfFuel => OutOfFuel
                  end
            | [] => Fail "Expecting value"
            end
          else scan_scalar l
      end
  end
with scan_members (fuel : nat) (l : list ascii) {struct fuel}
  : scan (list (ustring * json)) :=
  match fuel with
  | 0 => OutOfFuel
  | S fuel' =>
      match py_scanstring l with
      | Fail m => Fail m
      | OutOfFuel => OutOfFuel
      | Scanned key r =>
          match skip_ws r with
          | c :: r1 =>
              if chr 58 c then
                match scan_once fuel' (skip_ws r1) with
                | Fail m => Fail m
                | OutOfFuel => OutOfFuel
                | Scanned v r2 =>
                    match skip_ws r2 with
                    | d :: r3 =>
                        if chr 125 d then Scanned [(key, v)] r3
                        else if chr 44 d then
                          match skip_ws r3 with
                          | q :: r4 =>
                              if chr dquote q then
                                match scan_members fuel' r4 with
                                | Scanned ms r5 => Scanned ((key, v) :: ms) r5
                                | other => other
                                end
                              else Fail "Expecting property name enclosed in double quotes"
                          | [] => Fail "Expecting property name enclosed in double quotes"
                          end
                        else Fail "Expecting ',' delimiter"
                    | [] => Fail "Expecting ',' delimiter"
                    end
                end
              else Fail "Expecting ':' delimiter"
          | [] => Fail "Expecting ':' delimiter"
          end
      end
  end
with scan_items (fuel : nat) (l : list ascii) {struct fuel} : scan (list json) :=
  match fuel with
  | 0 => OutOfFuel
  | S fuel' =>
      match scan_once fuel' l with
      | Fail m => Fail m
      | OutOfFuel => OutOfFuel
      | Scanned v r =>
          match skip_ws r with
          | d :: r1 =>
              if chr 93 d then Scanned [v] r1
              else if chr 44 d then
                match scan_items fuel' (skip_ws r1) with
                | Scanned xs r2 => Scanned (v :: xs) r2
                | other => other
                end
              else Fail "Expecting ',' delimiter"
          | [] => Fail "Expecting ',' delimiter"
          end
      end
  end.

(** [json.loads(s)]: [inl msg] stands for a raised [JSONDecodeError],
    named by the fixed part [msg] of its message (the position that
    follows it in [str(e)] is left out).  The scanner gets twice the
    length of the text as fuel and never uses it up ([loads_fuel]). *)
Definition loads (s : string) : string + json :=
  let l := list_ascii_of_string s in
  match scan_once (2 * length l + 2) (skip_ws l) with
  | Scanned v r =>
      match skip_ws r with
      | [] => inr v
      | _ :: _ => inl "Extra data"
      end
  | Fail m => inl m
  | OutOfFuel => inl "Expecting value"
  end.

(** The Python type name of a decoded value. *)
Definition type_name (v : json) : string :=
  match v with
  | JNull => "NoneType"
  | JBool _ => "bool"
  | JNumber lx =>
      if Py.contains "." lx || Py.contains "e" lx || Py.contains "E" lx
      then "float" else "int"
  | JConst _ => "float"
  | JString _ => "str"
  | JArray _ => "list"
  | JObject _ => "dict"
  end.

Definition ustring_eqb (a b : ustring) : bool := bool_decide (a = b).

(** Lookup in the [dict] built from the members: of two members with one
    key the later one counts. *)
Fixpoint lookup_member (k : ustring) (ms : list (ustring * json)) : option json :=
  match ms with
  | [] => None
  | (k', v) :: ms' =>
      match lookup_member k ms' with
      | Some v' => Some v'
      | None => if ustring_eqb k' k then Some v else None
      end
  end.

(** [meta.get(key, default)]: only a [dict] has the method. *)
Definition get (meta : json) (key : string) (default : json) : result json :=
  match meta with
  | JObject ms =>
      match lookup_member (ustr key) ms with
      | Some v => Ok v
      | None => Ok default
      end
  | other =>
      Err (AttributeError
             ("'" +:+ type_name other +:+ "' object has no attribute 'get'"))
  end.

(** Writes a JSON text with apostrophes where the quotes go, so that
    [dq "{'text':'x'}"] is the eleven characters of that object. *)
Definition dq (s : string) : string :=
  string_of_list_ascii
    (map (fun c => if chr 39 c then ascii_of_nat dquote else c)
         (list_ascii_of_string s)).

End Json.

(** ** The pydantic models of [app/schemas/models.py]

    Constructing a model validates its fields in the order declared.  A
    failure of a field (an argument that is missing, a constraint that is
    broken, a [ValueError] raised by a [field_validator]) is collected, and
    once every field is validated one [ValidationError] lists the
    failures.  Any other exception raised by a [field_validator] is no
    failure: it ends the construction where it is raised and leaves the
    constructor as it is.  An argument that is not passed is [None]; a
    field declared with [Field(...)] is required.  The declared type and
    constraint of a field are checked first; its [field_validator] runs
    only on a value that passed them, and receives the validated value. *)

(** What validating one field gives: the stored value, the failures, or
    an exception that is no failure. *)
Inductive checked (A : Type) :=
| Valid (a : A)
| Invalid (errors : list string)
| Raised (e : exn).

Arguments Valid {A} a.
Arguments Invalid {A} errors.
Arguments Raised {A} e.

Definition failures {A} (c : checked A) : list string :=
  match c with
  | Invalid errs => errs
  | _ => []
  end.

Definition required {A B} (field : string) (arg : option A)
    (check : A -> checked B) : checked B :=
  match arg with
  | None => Invalid [field +:+ ": Field required"]
  | Some v =>
      match check v with
      | Invalid errs => Invalid (map (fun m => field +:+ ": " +:+ m) errs)
      | other => other
      end
  end.

Definition max_length (n : nat) (v : string) : checked string :=
  if n <? Py.len v
  then Invalid ["String should have at most " +:+ pretty n +:+ " characters"]
  else Valid v.

(** Runs a [field_validator] on a validated value: a raised [ValueError]
    becomes a failure, any other exception goes on as it is. *)
Definition after_validator {A} (f : A -> result A) (c : checked A) : checked A :=
  match c with
  | Valid v =>
      match f v with
      | Ok v' => Valid v'
      | Err (ValueError m) => Invalid ["Value error, " +:+ m]
      | Err e => Raised e
      end
  | other => other
  end.

(** Two fields, or two items of a list, the left one first: an exception
    of the left one ends the validation before the right one is looked
    at. *)
Definition both {A B} (c : checked A) (d : checked B) : checked (A * B) :=
  match c with
  | Raised e => Raised e
  | Valid a =>
      match d with
      | Valid b => Valid (a, b)
      | Invalid errs => Invalid errs
      | Raised e => Raised e
      end
  | Invalid errs =>
      match d with
      | Raised e => Raised e
      | other => Invalid (errs ++ failures other)
      end
  end.

(** A value that is itself a model: the failures of its construction are
    failures of the field. *)
Definition nested {A} (r : result A) : checked A :=
  match r with
  | Ok a => Valid a
  | Err (ValidationError errs) => Invalid errs
  | Err e => Raised e
  end.

(** How a construction ends. *)
Definition construct {A} (c : checked A) : result A :=
  match c with
  | Valid a => Ok a
  | Invalid errs => Err (ValidationError errs)
  | Raised e => Err e
  end.

(** pydantic's URL object, the validated value of a field declared
    [HttpUrl].  It is no [str]: [str(url)] gives its text, and of the
    methods of a [str] it has none, so that asking it for one raises. *)
Module Url.

Record t := mk { text : string }.

Definition startswith (v : t) (prefix : string) : result bool :=
  Err (AttributeError "'HttpUrl' object has no attribute 'startswith'").

End Url.

Module Judge.

(** [model] holds the text of the URL, which is how the code reads the
    field, through [str]. *)
Record t := mk {
  id : string;
  name : string;
  model : string;
  metaprompt : string
}.

Definition model_must_be_azure_url (v : Url.t) : result Url.t :=
  b <-! Url.startswith v "https://" ;;
  if negb b
  then Err (ValueError "model must be a URL from Azure Open AI")
  else Ok v.

Definition metaprompt_must_be_json_serializable (v : string) : result string :=
  match Json.loads v with
  | inl _ => Err (ValueError "metaprompt must be JSON serializable")
  | inr _ =>
      if negb (Py.contains "text" v && Py.contains "json" v)
      then Err (ValueError "metaprompt must contain the format (text, json)")
      else Ok v
  end.

(** The keyword arguments of the constructor, as a stored document
    gives them. *)
Record args := mk_args {
  arg_id : option string;
  arg_name : option string;
  arg_model : option string;
  arg_metaprompt : option string
}.

Section Init.

(** pydantic's [HttpUrl]: whether a string is accepted as an http or
    https URL. *)
Variable HttpUrl : string -> bool.

Definition http_url (v : string) : checked Url.t :=
  if HttpUrl v then Valid (Url.mk v) else Invalid ["Input should be a valid URL"].

Definition init (a : args) : result t :=
  let c_id := required "id" (arg_id a) Valid in
  let c_name := required "name" (arg_name a) (max_length 16) in
  let c_model :=
    required "model" (arg_model a)
      (fun v => after_validator model_must_be_azure_url (http_url v)) in
  let c_metaprompt :=
    required "metaprompt" (arg_metaprompt a)
      (fun v => after_validator metaprompt_must_be_json_serializable
                  (max_length 60 v)) in
  construct
    match both c_id (both c_name (both c_model c_metaprompt)) with
    | Valid (i, (n, (m, p))) => Valid (mk i n (Url.text m) p)
    | Invalid errs => Invalid errs
    | Raised e => Raised e
    end.

End Init.

End Judge.

Module Assembly.

Record t := mk {
  id : string;
  judges : list Judge.t;
  roles : list string
}.

Fixpoint roles_must_not_exceed_length_loop (v : list string) : result unit :=
  match v with
  | [] => Ok tt
  | role :: v' =>
      if 60 <? Py.len role
      then Err (ValueError "each role must have at most 60 characters")
      else roles_must_not_exceed_length_loop v'
  end.

Definition roles_must_not_exceed_length (v : list string) : result (list string) :=
  _ <-! roles_must_not_exceed_length_loop v ;; Ok v.

Record args := mk_args {
  arg_id : option string;
  arg_judges : option (list Judge.args);
  arg_roles : option (list string)
}.

Section Init.

Variable HttpUrl : string -> bool.

(** Every item of [judges] is validated as a [Judge], in the order of the
    list. *)
Fixpoint validate_judges (js : list Judge.args) : checked (list Judge.t) :=
  match js with
  | [] => Valid []
  | j :: js' =>
      match both (nested (Judge.init HttpUrl j)) (validate_judges js') with
      | Valid (v, vs) => Valid (v :: vs)
      | Invalid errs => Invalid errs
      | Raised e => Raised e
      end
  end.

Definition validate_roles (v : list string) : checked (list string) :=
  after_validator roles_must_not_exceed_length (Valid v).

Definition init (a : args) : result t :=
  let c_id := required (B := string) "id" (arg_id a) Valid in
  let c_judges := required "judges" (arg_judges a) validate_judges in
  let c_roles := required "roles" (arg_roles a) validate_roles in
  construct
    match both c_id (both c_judges c_roles) with
    | Valid (i, (js, rs)) => Valid (mk i js rs)
    | Invalid errs => Invalid errs
    | Raised e => Raised e
    end.

End Init.

End Assembly.

(** ** The LLM capability

    [semantic_kernel] is outside the repository.  Of a kernel the code
    uses the lookup of execution settings by service id and, through a
    [ChatCompletionAgent] built on it, the invocation that answers a chat
    history with a sequence of messages or raises.  The same request can be
    answered differently each time, so an invocation also receives a
    ticket that tells invocations apart. *)

Module SK.

Inductive ContentItem :=
| TextContent (text : string)
| FunctionCallContent
| FunctionResultContent
| OtherContent.

Record ChatMessageContent := mk_message {
  items : list ContentItem;
  content : string
}.

Inductive FunctionChoiceBehavior := Auto.

Record PromptExecutionSettings := mk_settings {
  settings_service_id : option string;
  function_choice_behavior : option FunctionChoiceBehavior
}.

Record ChatCompletionAgent := mk_agent {
  service_id : string;
  name : string;
  instructions : Json.json;
  arguments : PromptExecutionSettings
}.

Record Kernel := mk_kernel {
  get_prompt_execution_settings_from_service_id :
    string -> option PromptExecutionSettings;
  invoke : nat -> ChatCompletionAgent -> list string
           -> result (list ChatMessageContent)
}.

End SK.

(** ** Objects and the heap

    A reference is an index into the heap's list of objects of its class.
    A [ConcreteJudge] and a [SuperJudge] are both [JudgeBase] objects and
    carry its [mediator] field; the sub-judges of a coordinator are the
    [ConcreteJudge] objects that [JudgeFactory.create_judges] builds. *)

Abbreviation loc := nat (only parsing).

Module ConcreteJudge.

Record t := mk {
  judge_data : Judge.t;
  kernel : SK.Kernel;
  mediator : option loc
}.

Definition __init__ (judge_data : Judge.t) (kernel : SK.Kernel) : t :=
  mk judge_data kernel None.

Definition set_mediator (m : option loc) (self : t) : t :=
  mk (judge_data self) (kernel self) m.

Definition is_function_item (item : SK.ContentItem) : bool :=
  match item with
  | SK.FunctionCallContent | SK.FunctionResultContent => true
  | _ => false
  end.

(** The loop over the messages of the response. *)
Fixpoint collect (msgs : list SK.ChatMessageContent) (final_content : list string)
  : list string :=
  match msgs with
  | [] => final_content
  | msg_content :: msgs' =>
      if existsb is_function_item (SK.items msg_content)
      then collect msgs' final_content
      else if Py.truthy (Py.strip (SK.content msg_content))
      then collect msgs' (final_content ++ [SK.content msg_content])
      else collect msgs' final_content
  end.

Definition no_output : string := "[No output from LLM]".

Definition result_str (msgs : list SK.ChatMessageContent) : string :=
  Py.or_else (Py.strip (Py.join Py.NL (collect msgs []))) no_output.

(** Step 1 of [evaluate]: the system text taken from the metaprompt. *)
Definition system_text (self : t) : result Json.json :=
  meta <-! match Json.loads (Judge.metaprompt (judge_data self)) with
           | inr v => Ok v
           | inl e => Err (ValueError ("Invalid JSON in metaprompt: " +:+ e))
           end ;;
  Json.get meta "text" (Json.JString (Json.ustr "System Prompt Missing")).

(** Step 2: the execution settings, with automatic function choice. *)
Definition settings (self : t) : result SK.PromptExecutionSettings :=
  let lookup := SK.get_prompt_execution_settings_from_service_id (kernel self) in
  let found :=
    match lookup (Judge.model (judge_data self)) with
    | Some s => Some s
    | None => lookup "default"
    end in
  match found with
  | Some s => Ok (SK.mk_settings (SK.settings_service_id s) (Some SK.Auto))
  | None =>
      Err (AttributeError
             "'NoneType' object has no attribute 'function_choice_behavior'")
  end.

(** Step 3: the agent. *)
Definition agent (self : t) (text : Json.json)
    (args : SK.PromptExecutionSettings) : SK.ChatCompletionAgent :=
  SK.mk_agent (Py.or_else (Judge.model (judge_data self)) "default")
              (Judge.name (judge_data self)) text args.

(** Steps 1 to 4 up to the messages that the invocation yields. *)
Definition response (self : t) (ticket : nat) (prompt : string)
  : result (list SK.ChatMessageContent) :=
  text <-! system_text self ;;
  args <-! settings self ;;
  let chat_history := [prompt] in
  SK.invoke (kernel self) ticket (agent self text args) chat_history.

(** Steps 1 to 4 of [evaluate]: everything before the notification. *)
Definition answer (self : t) (ticket : nat) (prompt : string) : result string :=
  msgs <-! response self ticket prompt ;;
  Ok (result_str msgs).

(** The payload of the notification. *)
Definition data (self : t) (result : string) : gmap string string :=
  <["judge_id" := Judge.id (judge_data self)]>
    (<["judge_name" := Judge.name (judge_data self)]>
       (<["result" := result]> ∅)).

End ConcreteJudge.

Module SuperJudge.

Record t := mk {
  kernel : SK.Kernel;
  name : string;
  _judges : list loc;
  _evaluations : list (gmap string string);
  mediator : option loc
}.

Definition __init__ (kernel : SK.Kernel) (name : string) : t :=
  mk kernel name [] [] None.

Definition add_judge (judge : loc) (self : t) : t :=
  mk (kernel self) (name self) (_judges self ++ [judge]) (_evaluations self)
     (mediator self).

Definition notify (sender : loc) (event : string) (data : gmap string string)
    (self : t) : t :=
  if String.eqb event "evaluation_done"
  then mk (kernel self) (name self) (_judges self) (_evaluations self ++ [data])
          (mediator self)
  else self.

(** [ev[key]] *)
Definition getitem (ev : gmap string string) (key : string) : result string :=
  match ev !! key with
  | Some v => Ok v
  | None => Err (KeyError key)
  end.

Definition line (ev : gmap string string) : result string :=
  judge_name <-! getitem ev "judge_name" ;;
  result <-! getitem ev "result" ;;
  Ok (judge_name +:+ " => " +:+ result).

Fixpoint render (evs : list (gmap string string)) (lines : list string)
  : result (list string) :=
  match evs with
  | [] => Ok lines
  | ev :: evs' => l <-! line ev ;; render evs' (lines ++ [l])
  end.

Definition no_evaluations : string := "[No evaluations received]".

Definition final_verdict (self : t) : result string :=
  match _evaluations self with
  | [] => Ok no_evaluations
  | _ :: _ =>
      lines <-! render (_evaluations self) [] ;;
      Ok (Py.join Py.NL lines)
  end.

End SuperJudge.

Record Heap := mkHeap {
  concrete_judges : list ConcreteJudge.t;
  super_judges : list SuperJudge.t;
  clock : nat
}.

Definition empty_heap : Heap := mkHeap [] [] 0.

(** ** The methods that reach other objects

    A method applied to a reference that names no object leaves the heap
    as it is. *)

Definition new_ConcreteJudge (judge_data : Judge.t) (kernel : SK.Kernel) (h : Heap)
    : loc * Heap :=
  (length (concrete_judges h),
   mkHeap (concrete_judges h ++ [ConcreteJudge.__init__ judge_data kernel])
          (super_judges h) (clock h)).

Definition new_SuperJudge (kernel : SK.Kernel) (name : string) (h : Heap)
    : loc * Heap :=
  (length (super_judges h),
   mkHeap (concrete_judges h)
          (super_judges h ++ [SuperJudge.__init__ kernel name]) (clock h)).

Definition SuperJudge_register_judge (self judge : loc) (h : Heap) : Heap :=
  mkHeap (alter (ConcreteJudge.set_mediator (Some self)) judge (concrete_judges h))
         (alter (SuperJudge.add_judge judge) self (super_judges h))
         (clock h).

Definition SuperJudge_notify (self sender : loc) (event : string)
    (data : gmap string string) (h : Heap) : Heap :=
  mkHeap (concrete_judges h)
         (alter (SuperJudge.notify sender event data) self (super_judges h))
         (clock h).

Definition SuperJudge_final_verdict (self : loc) (h : Heap) : result string :=
  match super_judges h !! self with
  | Some o => SuperJudge.final_verdict o
  | None => Err Dangling
  end.

Definition tick (h : Heap) : Heap :=
  mkHeap (concrete_judges h) (super_judges h) (S (clock h)).

(** [ConcreteJudge.evaluate]: the answer of the LLM, then the one
    notification to the mediator if there is one. *)
Definition ConcreteJudge_evaluate (self : loc) (prompt : string) (h : Heap)
    : Heap * result unit :=
  match concrete_judges h !! self with
  | None => (h, Err Dangling)
  | Some o =>
      match ConcreteJudge.answer o (clock h) prompt with
      | Err e => (tick h, Err e)
      | Ok result_str =>
          match ConcreteJudge.mediator o with
          | Some m =>
              (SuperJudge_notify m self "evaluation_done"
                 (ConcreteJudge.data o result_str) (tick h), Ok tt)
          | None => (tick h, Ok tt)
          end
      end
  end.

(** ** [asyncio.gather]

    The evaluations run as tasks on one event loop.  An evaluation touches
    shared state only in its notification, which it sends when it
    completes, so a run is determined by the order in which the tasks
    complete.  That order is the scheduler's: [sched] gives, for each
    completion, which of the still pending tasks it is (taken modulo their
    number, and the first one when [sched] is used up).  [gather] raises the
    exception of the first task that fails, without waiting for the tasks
    still pending then and without cancelling them: [run_tasks] gives the
    heap and the result at that moment, [left_running] the tasks that go
    on in the event loop.  Each of these completes later as an evaluation
    on its own does (the call [JudgeEvaluate] below), and its exception,
    if it raises, stays in its task. *)

Fixpoint completion_order {A} (n : nat) (sched : list nat) (pending : list A)
  : list A :=
  match n with
  | 0 => []
  | S n' =>
      let i := hd 0 sched `mod` length pending in
      match pending !! i with
      | Some x => x :: completion_order n' (tl sched) (delete i pending)
      | None => []
      end
  end.

Fixpoint run_tasks (order : list loc) (prompt : string) (h : Heap)
  : Heap * result unit :=
  match order with
  | [] => (h, Ok tt)
  | j :: order' =>
      match ConcreteJudge_evaluate j prompt h with
      | (h', Ok _) => run_tasks order' prompt h'
      | (h', Err e) => (h', Err e)
      end
  end.


Definition gather (sched : list nat) (judges : list loc) (prompt : string)
    (h : Heap) : Heap * result unit :=
  run_tasks (completion_order (length judges) sched judges) prompt h.

(** ** The plan, the factory and the orchestrator *)

Definition JudgeEvaluationPlan_run_plan (sched : list nat) (super_judge : loc)
    (prompt : string) (h : Heap) : Heap * result string :=
  let judges :=
    match super_judges h !! super_judge with
    | Some o => SuperJudge._judges o
    | None => []
    end in
  match gather sched judges prompt h with
  | (h', Ok _) => (h', SuperJudge_final_verdict super_judge h')
  | (h', Err e) => (h', Err e)
  end.

Definition SuperJudge_evaluate (sched : list nat) (self : loc) (prompt : string)
    (h : Heap) : Heap * result unit :=
  match JudgeEvaluationPlan_run_plan sched self prompt h with
  | (h', Ok _) => (h', Ok tt)
  | (h', Err e) => (h', Err e)
  end.

Fixpoint JudgeFactory_create_judges (judges : list Judge.t) (kernel : SK.Kernel)
    (h : Heap) : list loc * Heap :=
  match judges with
  | [] => ([], h)
  | jd :: judges' =>
      let '(j, h1) := new_ConcreteJudge jd kernel h in
      let '(js, h2) := JudgeFactory_create_judges judges' kernel h1 in
      (j :: js, h2)
  end.

Fixpoint register_all (super_judge : loc) (sub_judges : list loc) (h : Heap) : Heap :=
  match sub_judges with
  | [] => h
  | j :: sub_judges' =>
      register_all super_judge sub_judges' (SuperJudge_register_judge super_judge j h)
  end.

Section Orchestrator.

(** The kernel that [JudgeFactory.build_kernel] returns. *)
Variable build_kernel : SK.Kernel.

Definition JudgeOrchestrator_run_evaluation (sched : list nat)
    (assembly : Assembly.t) (prompt : string) (h : Heap) : Heap * result string :=
  let kernel := build_kernel in
  let '(super_judge, h1) :=
    new_SuperJudge kernel ("SuperJudge_" +:+ Assembly.id assembly) h in
  let '(sub_judges, h2) :=
    JudgeFactory_create_judges (Assembly.judges assembly) kernel h1 in
  let h3 := register_all super_judge sub_judges h2 in
  match SuperJudge_evaluate sched super_judge prompt h3 with
  | (h4, Ok _) => (h4, SuperJudge_final_verdict super_judge h4)
  | (h4, Err e) => (h4, Err e)
  end.

End Orchestrator.

(** ** Vocabulary of the properties *)

(** A message that is a function-call or function-result marker. *)
Definition is_marker (msg : SK.ChatMessageContent) : Prop :=
  exists item, In item (SK.items msg)
               /\ (item = SK.FunctionCallContent \/ item = SK.FunctionResultContent).

(** A text made of whitespace only. *)
Definition whitespace_only (s : string) : Prop :=
  Forall (fun c => Py.isspace c = true) (list_ascii_of_string s).

(** The line that the report shows for a verdict. *)
Definition renders (ev : gmap string string) (l : string) : Prop :=
  exists judge_name result,
    ev !! "judge_name" = Some judge_name /\ ev !! "result" = Some result
    /\ l = judge_name +:+ " => " +:+ result.

(** A kernel that registers no settings and whose LLM answers nothing. *)
Definition silent_kernel : SK.Kernel :=
  SK.mk_kernel (fun _ => None) (fun _ _ _ => Ok []).

Definition verdict (judge_id judge_name result : string) : gmap string string :=
  <["judge_id" := judge_id]>
    (<["judge_name" := judge_name]> (<["result" := result]> ∅)).

(** The coordinator with [vs] appended to its collected verdicts. *)
Definition extend (vs : list (gmap string string)) (o : SuperJudge.t) : SuperJudge.t :=
  SuperJudge.mk (SuperJudge.kernel o) (SuperJudge.name o) (SuperJudge._judges o)
                (SuperJudge._evaluations o ++ vs) (SuperJudge.mediator o).

(** What an evaluation sends is a verdict: it carries the three keys. *)
Definition is_verdict (v : gmap string string) : Prop :=
  exists o result, v = ConcreteJudge.data o result.

(** A sub-judge as [create_judges] builds it and [register_judge] binds it. *)
Definition registered (kernel : SK.Kernel) (sj : loc) (jd : Judge.t) : ConcreteJudge.t :=
  ConcreteJudge.mk jd kernel (Some sj).

(** What the evaluation of judge [jd] sends when it completes at ticket
    [t]: the verdict [v] with the answer it got then, shown in the report
    as the line [l]. *)
Definition sends (kernel : SK.Kernel) (sj : loc) (prompt : string) (t : nat)
    (jd : Judge.t) (v : gmap string string) (l : string) : Prop :=
  exists res,
    ConcreteJudge.answer (registered kernel sj jd) t prompt = Ok res
    /\ v = ConcreteJudge.data (registered kernel sj jd) res
    /\ l = Judge.name jd +:+ " => " +:+ res.

(** The coordinator of a call, once its sub-judges are registered. *)
Definition coordinator (kernel : SK.Kernel) (assembly : Assembly.t) (base : nat)
    : SuperJudge.t :=
  SuperJudge.mk kernel ("SuperJudge_" +:+ Assembly.id assembly)
                (seq base (length (Assembly.judges assembly))) [] None.

(** The heap in which the evaluations of a call start. *)
Definition prepared (k : SK.Kernel) (assembly : Assembly.t) (h : Heap) : Heap :=
  mkHeap (concrete_judges h
          ++ map (registered k (length (super_judges h))) (Assembly.judges assembly))
         (super_judges h ++ [coordinator k assembly (length (concrete_judges h))])
         (clock h).

(** The judge that a verdict names, and the name under which a panel's
    judge reports. *)
Definition verdict_judge (v : gmap string string) : option string * option string :=
  (v !! "judge_id", v !! "judge_name").

Definition judge_key (jd : Judge.t) : option string * option string :=
  (Some (Judge.id jd), Some (Judge.name jd)).

(** ** Sample kernels, judges and panels *)

(** A kernel with settings for every service whose LLM answers every
    request with the one text [reply]. *)
Definition replying_kernel (reply : string) : SK.Kernel :=
  SK.mk_kernel (fun _ => Some (SK.mk_settings None None))
               (fun _ _ _ => Ok [SK.mk_message [SK.TextContent reply] reply]).

Definition judge_a : Judge.t :=
  Judge.mk "1" "Judge1" "https://x/m1" (Json.dq "{'text':'Be harsh','json':''}").

Definition judge_b : Judge.t :=
  Judge.mk "2" "Judge2" "https://x/m2" (Json.dq "{'text':'Be kind','json':''}").

Definition judge_malformed : Judge.t :=
  Judge.mk "3" "Judge3" "https://x/m3" "Be harsh".

Definition marker_call : SK.ChatMessageContent :=
  SK.mk_message [SK.FunctionCallContent] "get_rules".

Definition marker_result : SK.ChatMessageContent :=
  SK.mk_message [SK.TextContent "Mocked rules"; SK.FunctionResultContent] "Mocked rules".

Definition blank_text : SK.ChatMessageContent :=
  SK.mk_message [SK.TextContent ("  " +:+ Py.NL)] ("  " +:+ Py.NL).

(** A kernel whose LLM answers with markers and blank text only. *)
Definition marker_kernel : SK.Kernel :=
  SK.mk_kernel (fun _ => Some (SK.mk_settings None None))
               (fun _ _ _ => Ok [marker_call; blank_text; marker_result]).

(** A judge whose metaprompt is a JSON array of two words. *)
Definition judge_array : Judge.t :=
  Judge.mk "4" "Judge4" "https://x/m4" (Json.dq "['text','json']").

(** A JSON text that has a textual instruction field. *)
Definition has_text_field (metaprompt : string) : Prop :=
  exists ms s,
    Json.loads metaprompt = inr (Json.JObject ms)
    /\ Json.lookup_member (Json.ustr "text") ms = Some (Json.JString s).

Definition scenario_judge_args : Judge.args :=
  Judge.mk_args (Some "1") (Some "Judge1") (Some "https://x/m1")
                (Some (Json.dq "{'text':'Be harsh'}")).

Definition scenario_panel_args : Assembly.args :=
  Assembly.mk_args (Some "p1") (Some [scenario_judge_args]) (Some ["qa"]).

(** The panel of the scenario as a value, had it been constructed. *)
Definition scenario_panel : Assembly.t :=
  Assembly.mk "p1"
    [Judge.mk "1" "Judge1" "https://x/m1" (Json.dq "{'text':'Be harsh'}")] ["qa"].

(** ** Calls over time *)

(** The calls that a program can make on the objects of the heap. *)
Inductive operation :=
| Register (self judge : loc)
| Notify (self sender : loc) (event : string) (data : gmap string string)
| FinalVerdict (self : loc)
| Evaluate (sched : list nat) (self : loc) (prompt : string)
| JudgeEvaluate (judge : loc) (prompt : string).

(** The heap after a call; [final_verdict] only reads. *)
Definition perform (op : operation) (h : Heap) : Heap :=
  match op with
  | Register self judge => SuperJudge_register_judge self judge h
  | Notify self sender event data => SuperJudge_notify self sender event data h
  | FinalVerdict self => h
  | Evaluate sched self prompt => fst (SuperJudge_evaluate sched self prompt h)
  | JudgeEvaluate judge prompt => fst (ConcreteJudge_evaluate judge prompt h)
  end.

Definition perform_all (ops : list operation) (h : Heap) : Heap :=
  fold_left (fun h op => perform op h) ops h.

(** Every coordinator of [h] is in [h'] with its verdicts and more. *)
Definition grows (h h' : Heap) : Prop :=
  forall sj o,
    super_judges h !! sj = Some o ->
    exists o' vs,
      super_judges h' !! sj = Some o'
      /\ SuperJudge._evaluations o' = SuperJudge._evaluations o ++ vs.

(** A scan that ended, leaving fewer than [n] characters. *)
Definition within {A} (n : nat) (x : Json.scan A) : Prop :=
  match x with
  | Json.Scanned _ r => length r < n
  | Json.Fail _ => True
  | Json.OutOfFuel => False
  end.

(** ** The web service of [app/main.py]

    Of the endpoints, the parts that the service computes itself: the
    queries and parameters handed to the document store, the document
    that an update writes, and the evaluation endpoint around
    [run_evaluation].  The store is the Cosmos account as the service
    reads it: databases by name, their containers by name, the items of a
    container by id (an item's partition key is its id). *)

(** [bool(arg)] for an optional query argument. *)
Definition truthy_arg (arg : option string) : bool :=
  match arg with
  | Some s => Py.truthy s
  | None => false
  end.

(** [f"%{arg}%"] *)
Definition like_pattern (arg : option string) : string :=
  "%" +:+ match arg with Some s => s | None => "None" end +:+ "%".

(** One entry of [parameters]: the dict with the keys name and value. *)
Record parameter := mk_parameter {
  parameter_name : string;
  parameter_value : string
}.

(** The query and the parameters that [list_judges] passes to
    [query_items]. *)
Definition list_judges_query (name email : option string) : string * list parameter :=
  let query := "SELECT * FROM judges" in
  let parameters := [] in
  let '(query, parameters) :=
    if truthy_arg name
    then (query +:+ " WHERE judges.name LIKE @judge_name",
          parameters ++ [mk_parameter "@judge_name" (like_pattern name)])
    else (query, parameters) in
  if truthy_arg email
  then ((if Py.contains "WHERE" query
         then query +:+ " OR judges.email LIKE @judge_email"
         else query +:+ " WHERE judges.email LIKE @judge_email"),
        parameters ++ [mk_parameter "@judge_email" (like_pattern email)])
  else (query, parameters).

(** The query and the parameters of [list_assemblies]. *)
Definition list_assemblies_query (role : option string) : string * list parameter :=
  let query := "SELECT * FROM c" in
  let parameters := [] in
  if truthy_arg role
  then (query +:+ " WHERE c.roles LIKE @role",
        parameters ++ [mk_parameter "@role" (like_pattern role)])
  else (query, parameters).

(** [judge.model_dump()], the URL as its text. *)
Definition model_dump (judge : Judge.t) : gmap string string :=
  <["id" := Judge.id judge]>
    (<["name" := Judge.name judge]>
       (<["model" := Judge.model judge]>
          (<["metaprompt" := Judge.metaprompt judge]> ∅))).

(** The dict display with two unpackings: a key of [b] counts over the
    same key of [a]. *)
Definition merge (a b : gmap string string) : gmap string string := b ∪ a.

(** The document that [update_judge] writes back. *)
Definition updated_judge (existing_client : gmap string string) (judge : Judge.t)
    : gmap string string :=
  merge existing_client (model_dump judge).

(** The request body of the evaluation endpoint
    ([app/schemas/endpoints.py]). *)
Inductive method := method_assembly | method_super.

Record JudgeEvaluation := mk_JudgeEvaluation {
  evaluation_id : string;
  evaluation_prompt : string;
  evaluation_method : method
}.

(** Modelled from the spec: the success envelope [SuccessMessage] of
    [app/schemas/responses.py], a file that is not among the sources; its
    fields are the keyword arguments of the call in [evaluate_judgment]. *)
Record SuccessMessage := mk_SuccessMessage {
  title : string;
  message : string;
  content : gmap string string
}.

(** How a handler ends: with a response, with an [HTTPException], or with
    another exception that nothing in the handler catches. *)
Inductive outcome :=
| JSONResponse (status_code : nat) (body : SuccessMessage)
| HTTPException (status_code : nat) (detail : string)
| Unhandled (e : exn).

(** [str(ex)] for the exceptions of the core.  The text of a pydantic
    [ValidationError] is pydantic's own; its failures stand for it. *)
Definition str_exn (ex : exn) : string :=
  match ex with
  | ValueError msg => msg
  | AttributeError msg => msg
  | KeyError key => "'" +:+ key +:+ "'"
  | ValidationError errors => Py.join Py.NL errors
  | UpstreamError msg => msg
  | Dangling => ""
  end.

Section Service.

(** The names read from the environment when [app/judges.py] is loaded. *)
Variable COSMOS_DB_NAME : string.
Variable COSMOS_ASSEMBLY_TABLE : string.

Variable HttpUrl : string -> bool.
Variable build_kernel : SK.Kernel.

(** [fetch_assembly]: the stored document, or [None] when the database,
    the container or the item is not found. *)
Definition fetch_assembly
    (account : gmap string (gmap string (gmap string Assembly.args)))
    (assembly_id : string) : option Assembly.args :=
  match account !! COSMOS_DB_NAME with
  | None => None
  | Some database =>
      match database !! COSMOS_ASSEMBLY_TABLE with
      | None => None
      | Some container => container !! assembly_id
      end
  end.

(** The endpoint [evaluate_judgment].  A stored document is a non-empty
    dict, so it is true in the test [not assembly_doc]. *)
Definition evaluate_judgment
    (account : gmap string (gmap string (gmap string Assembly.args)))
    (sched : list nat) (evaluation : JudgeEvaluation) (h : Heap) : Heap * outcome :=
  match fetch_assembly account (evaluation_id evaluation) with
  | None =>
      (h, HTTPException 404
            ("Assembly '" +:+ evaluation_id evaluation +:+ "' not found."))
  | Some assembly_doc =>
      match Assembly.init HttpUrl assembly_doc with
      | Err e => (h, Unhandled e)
      | Ok assembly =>
          match JudgeOrchestrator_run_evaluation build_kernel sched assembly
                  (evaluation_prompt evaluation) h with
          | (h', Err ex) => (h', HTTPException 500 (str_exn ex))
          | (h', Ok final_verdict) =>
              (h', JSONResponse 200
                     (mk_SuccessMessage "Evaluation Complete"
                        "Judging completed successfully."
                        (<["assembly_id" := evaluation_id evaluation]>
                           (<["result" := final_verdict]> ∅))))
          end
      end
  end.

End Service.

(** ** More vocabulary *)

(** A message whose text goes into the result: no function item, and a
    content that is not blank. *)
Definition visible (msg : SK.ChatMessageContent) : bool :=
  negb (existsb ConcreteJudge.is_function_item (SK.items msg))
  && Py.truthy (Py.strip (SK.content msg)).

(** A text without whitespace at either end. *)
Definition trimmed (s : string) : Prop := Py.strip s = s.

(** An account with one database, one container and one stored panel. *)
Definition account_with (db table id : string) (doc : Assembly.args)
    : gmap string (gmap string (gmap string Assembly.args)) :=
  {[ db := {[ table := {[ id := doc ]} ]} ]}.

(** * Properties *)

(** ** Python text *)

Lemma lstrip_chars_blank (l : list ascii) :
  Forall (fun c => Py.isspace c = true) l -> Py.lstrip_chars l = [].
Proof.
  induction 1 as [|c l Hc _ IH]; simpl; [reflexivity|].
  rewrite Hc. exact IH.
Qed.

Lemma strip_whitespace_only (s : string) :
  whitespace_only s -> Py.strip s = "".
Proof.
  intros H. unfold Py.strip. rewrite (lstrip_chars_blank _ H). reflexivity.
Qed.

(** ** The evaluator's result text *)

Lemma existsb_is_function_item (msg : SK.ChatMessageContent) :
  is_marker msg -> existsb ConcreteJudge.is_function_item (SK.items msg) = true.
Proof.
  intros (item & Hin & Hitem). apply existsb_exists. exists item. split; [exact Hin|].
  destruct Hitem as [-> | ->]; reflexivity.
Qed.

Lemma collect_discards (msgs : list SK.ChatMessageContent) (acc : list string) :
  Forall (fun msg => is_marker msg \/ whitespace_only (SK.content msg)) msgs ->
  ConcreteJudge.collect msgs acc = acc.
Proof.
  induction 1 as [|msg msgs Hmsg _ IH]; simpl; [reflexivity|].
  destruct (existsb ConcreteJudge.is_function_item (SK.items msg)) eqn:Hm; [exact IH|].
  destruct Hmsg as [Hmark | Hblank].
  - rewrite (existsb_is_function_item _ Hmark) in Hm. discriminate.
  - rewrite (strip_whitespace_only _ Hblank). exact IH.
Qed.

Lemma result_str_no_output (msgs : list SK.ChatMessageContent) :
  Forall (fun msg => is_marker msg \/ whitespace_only (SK.content msg)) msgs ->
  ConcreteJudge.result_str msgs = "[No output from LLM]".
Proof.
  intros H. unfold ConcreteJudge.result_str. rewrite (collect_discards _ _ H).
  reflexivity.
Qed.

(** ** The coordinator's report *)

Lemma line_renders (ev : gmap string string) (l : string) :
  SuperJudge.line ev = Ok l <-> renders ev l.
Proof.
  unfold SuperJudge.line, SuperJudge.getitem, renders. split.
  - destruct (ev !! "judge_name") as [n|] eqn:Hn; simpl; [|discriminate].
    destruct (ev !! "result") as [r|] eqn:Hr; simpl; [|discriminate].
    intros [= <-]. exists n, r. auto.
  - intros (n & r & Hn & Hr & ->). rewrite Hn. simpl. rewrite Hr. reflexivity.
Qed.

Lemma render_lines (evs : list (gmap string string)) (ls acc : list string) :
  Forall2 renders evs ls -> SuperJudge.render evs acc = Ok (acc ++ ls).
Proof.
  intros H. revert acc.
  induction H as [|ev l evs ls Hev _ IH]; intros acc; simpl.
  - rewrite app_nil_r. reflexivity.
  - apply line_renders in Hev. rewrite Hev. simpl.
    rewrite IH, <- app_assoc. reflexivity.
Qed.

Lemma final_verdict_nonempty (self : SuperJudge.t) (ls : list string) :
  SuperJudge._evaluations self <> [] ->
  Forall2 renders (SuperJudge._evaluations self) ls ->
  SuperJudge.final_verdict self = Ok (Py.join Py.NL ls).
Proof.
  intros Hne H. unfold SuperJudge.final_verdict.
  destruct (SuperJudge._evaluations self) as [|ev evs] eqn:E; [congruence|].
  rewrite (render_lines _ ls [] H). reflexivity.
Qed.

Lemma final_verdict_empty (self : SuperJudge.t) :
  SuperJudge._evaluations self = [] ->
  SuperJudge.final_verdict self = Ok "[No evaluations received]".
Proof. intros E. unfold SuperJudge.final_verdict. rewrite E. reflexivity. Qed.

(** C1, as stated: in every coordinator state [final_verdict] returns the
    newline-join of the lines of the collected verdicts.  It fails in the
    state that has collected nothing, where the join is the empty text and
    the method returns its sentinel. *)
Lemma C1_every_state_counterexample :
  ~ (forall (self : SuperJudge.t) (ls : list string),
        Forall2 renders (SuperJudge._evaluations self) ls ->
        SuperJudge.final_verdict self = Ok (Py.join Py.NL ls)).
Proof.
  intros H.
  specialize (H (SuperJudge.__init__ silent_kernel "SuperJudge") []).
  assert (E : Forall2 renders
                (SuperJudge._evaluations
                   (SuperJudge.__init__ silent_kernel "SuperJudge")) [])
    by constructor.
  specialize (H E). discriminate H.
Qed.

(** C1, amended: in every coordinator state that holds at least one
    verdict, each carrying [judge_name] and [result], [final_verdict]
    returns the newline-join of the lines "judge_name => result", one per
    verdict, in the order in which the notifications were appended. *)
Theorem C1_final_verdict_joins_lines (self : SuperJudge.t) (ls : list string) :
  SuperJudge._evaluations self <> [] ->
  Forall2 renders (SuperJudge._evaluations self) ls ->
  SuperJudge.final_verdict self = Ok (Py.join Py.NL ls).
Proof.
  intros Hne H. unfold SuperJudge.final_verdict.
  destruct (SuperJudge._evaluations self) as [|ev evs] eqn:E; [congruence|].
  (* the loop starts from the empty list of lines and appends one per verdict *)
  rewrite (render_lines (ev :: evs) ls [] H). simpl. reflexivity.
Qed.

Lemma renders_verdict (i n r : string) : renders (verdict i n r) (n +:+ " => " +:+ r).
Proof. exists n, r. repeat split; reflexivity. Qed.

Lemma C1_final_verdict_joins_lines_witness :
  let self :=
    SuperJudge.mk silent_kernel "SuperJudge" [0; 1]
      [verdict "2" "Judge2" "Poor."; verdict "1" "Judge1" "Looks fine."] None in
  SuperJudge._evaluations self <> []
  /\ Forall2 renders (SuperJudge._evaluations self)
       ["Judge2 => Poor."; "Judge1 => Looks fine."]
  /\ SuperJudge.final_verdict self
     = Ok ("Judge2 => Poor." +:+ Py.NL +:+ "Judge1 => Looks fine.").
Proof.
  intros self.
  assert (Hne : SuperJudge._evaluations self <> []) by discriminate.
  assert (Hls : Forall2 renders (SuperJudge._evaluations self)
                  ["Judge2 => Poor."; "Judge1 => Looks fine."]).
  { repeat constructor; apply renders_verdict. }
  split; [exact Hne|]. split; [exact Hls|].
  exact (C1_final_verdict_joins_lines self _ Hne Hls).
Defined.

(** ** The scheduler *)

Lemma completion_order_Permutation {A} (n : nat) (sched : list nat) (pending : list A) :
  length pending = n -> completion_order n sched pending ≡ₚ pending.
Proof.
  revert sched pending.
  induction n as [|n IH]; intros sched pending Hlen; simpl.
  - destruct pending; [reflexivity|discriminate].
  - assert (Hi : hd 0 sched `mod` length pending < length pending).
    { apply Nat.mod_upper_bound. lia. }
    destruct (lookup_lt_is_Some_2 _ _ Hi) as [x Hx]. rewrite Hx.
    etrans; [|symmetry; exact (delete_Permutation pending _ x Hx)].
    constructor. apply IH.
    rewrite length_delete by eauto. lia.
Qed.

(** ** Effects of one evaluation *)

Lemma extend_nil (o : SuperJudge.t) : extend [] o = o.
Proof. destruct o. unfold extend. simpl. rewrite app_nil_r. reflexivity. Qed.

Lemma extend_extend (vs ws : list (gmap string string)) (o : SuperJudge.t) :
  extend ws (extend vs o) = extend (vs ++ ws) o.
Proof. unfold extend. simpl. rewrite app_assoc. reflexivity. Qed.

Lemma notify_evaluation_done (sender : loc) (data : gmap string string) (o : SuperJudge.t) :
  SuperJudge.notify sender "evaluation_done" data o = extend [data] o.
Proof. reflexivity. Qed.

Lemma notify_extends (sender : loc) (event : string) (data : gmap string string)
    (o : SuperJudge.t) :
  exists vs, SuperJudge.notify sender event data o = extend vs o.
Proof.
  unfold SuperJudge.notify. destruct (String.eqb event "evaluation_done").
  - exists [data]. reflexivity.
  - exists []. symmetry. apply extend_nil.
Qed.

Lemma data_renders (o : ConcreteJudge.t) (r : string) :
  renders (ConcreteJudge.data o r)
          (Judge.name (ConcreteJudge.judge_data o) +:+ " => " +:+ r).
Proof. exists (Judge.name (ConcreteJudge.judge_data o)), r. repeat split; reflexivity. Qed.

Lemma evaluate_concrete_judges (j : loc) (prompt : string) (h : Heap) :
  concrete_judges (fst (ConcreteJudge_evaluate j prompt h)) = concrete_judges h.
Proof.
  unfold ConcreteJudge_evaluate.
  destruct (concrete_judges h !! j) as [o|]; [|reflexivity].
  destruct (ConcreteJudge.answer o (clock h) prompt); [|reflexivity].
  destruct (ConcreteJudge.mediator o); reflexivity.
Qed.

(** One evaluation by a judge whose mediator is [sj]. *)
Lemma evaluate_registered (j sj : loc) (o : ConcreteJudge.t) (prompt : string) (h : Heap) :
  concrete_judges h !! j = Some o ->
  ConcreteJudge.mediator o = Some sj ->
  ConcreteJudge_evaluate j prompt h =
    match ConcreteJudge.answer o (clock h) prompt with
    | Ok res =>
        (mkHeap (concrete_judges h)
                (alter (extend [ConcreteJudge.data o res]) sj (super_judges h))
                (S (clock h)), Ok tt)
    | Err e => (tick h, Err e)
    end.
Proof.
  intros Ho Hm. unfold ConcreteJudge_evaluate. rewrite Ho.
  destruct (ConcreteJudge.answer o (clock h) prompt); [|reflexivity].
  rewrite Hm. reflexivity.
Qed.

(** A run of tasks that all report to [sj]: on success the coordinator has
    received one verdict per task, in the order of completion. *)
Lemma run_tasks_registered (order : list loc) (sj : loc) (prompt : string) :
  forall h h' r,
    (forall j, In j order ->
       exists o, concrete_judges h !! j = Some o /\ ConcreteJudge.mediator o = Some sj) ->
    run_tasks order prompt h = (h', r) ->
    concrete_judges h' = concrete_judges h
    /\ exists vs,
         super_judges h' = alter (extend vs) sj (super_judges h)
         /\ Forall is_verdict vs
         /\ (is_Ok r = true ->
             Forall2 (fun j v => exists o t res,
                         concrete_judges h !! j = Some o
                         /\ ConcreteJudge.answer o t prompt = Ok res
                         /\ v = ConcreteJudge.data o res) order vs).
Proof.
  induction order as [|j order IH]; intros h h' r Hreg Hrun; simpl in Hrun.
  - injection Hrun as <- <-. split; [reflexivity|]. exists []. split.
    + symmetry. apply list_alter_id, extend_nil.
    + split; constructor.
  - destruct (Hreg j (or_introl eq_refl)) as (o & Ho & Hm).
    rewrite (evaluate_registered j sj o prompt h Ho Hm) in Hrun.
    destruct (ConcreteJudge.answer o (clock h) prompt) as [res|e] eqn:Hans.
    + apply IH in Hrun as (Hcs & vs & Hss & Hvs & Hok); simpl in *.
      * split; [exact Hcs|]. exists (ConcreteJudge.data o res :: vs). split.
        { rewrite Hss, list_alter_alter_eq. apply list_alter_ext; [|reflexivity].
          intros x _. simpl. rewrite extend_extend. reflexivity. }
        split; [constructor; [exists o, res; reflexivity|exact Hvs]|].
        intros Hr. constructor; [|exact (Hok Hr)].
        exists o, (clock h), res. auto.
      * intros j' Hj'. apply Hreg. right. exact Hj'.
    + injection Hrun as <- <-. split; [reflexivity|]. exists []. split.
      * symmetry. apply list_alter_id, extend_nil.
      * split; [constructor|]. discriminate.
Qed.

(** ** The heap that the orchestrator builds *)

Lemma alter_middle {A} (f : A -> A) (l1 l2 : list A) (x : A) :
  alter f (length l1) (l1 ++ x :: l2) = l1 ++ f x :: l2.
Proof.
  replace (length l1) with (length l1 + 0) by lia.
  rewrite alter_app_r. reflexivity.
Qed.

Lemma create_judges_spec (jds : list Judge.t) (k : SK.Kernel) :
  forall h,
    JudgeFactory_create_judges jds k h =
      (seq (length (concrete_judges h)) (length jds),
       mkHeap (concrete_judges h ++ map (fun jd => ConcreteJudge.__init__ jd k) jds)
              (super_judges h) (clock h)).
Proof.
  induction jds as [|jd jds IH]; intros h; simpl.
  - rewrite app_nil_r. destruct h; reflexivity.
  - rewrite IH. simpl. rewrite length_app, <- app_assoc. simpl.
    replace (length (concrete_judges h) + 1) with (S (length (concrete_judges h))) by lia.
    reflexivity.
Qed.

Lemma register_all_spec (k : SK.Kernel) (spre spost : list SuperJudge.t) (c : nat) :
  forall (todo : list Judge.t) (pre : list ConcreteJudge.t) (o : SuperJudge.t),
    register_all (length spre) (seq (length pre) (length todo))
      (mkHeap (pre ++ map (fun jd => ConcreteJudge.__init__ jd k) todo)
              (spre ++ o :: spost) c)
    = mkHeap (pre ++ map (registered k (length spre)) todo)
             (spre ++ SuperJudge.mk (SuperJudge.kernel o) (SuperJudge.name o)
                        (SuperJudge._judges o ++ seq (length pre) (length todo))
                        (SuperJudge._evaluations o) (SuperJudge.mediator o)
                   :: spost) c.
Proof.
  induction todo as [|jd todo IH]; intros pre o; simpl.
  - rewrite !app_nil_r. destruct o; reflexivity.
  - unfold SuperJudge_register_judge at 1. simpl.
    rewrite !alter_middle.
    specialize (IH (pre ++ [registered k (length spre) jd])
                   (SuperJudge.add_judge (length pre) o)).
    rewrite length_app in IH. simpl in IH.
    replace (length pre + 1) with (S (length pre)) in IH by lia.
    rewrite <- !app_assoc in IH. simpl in IH.
    exact IH.
Qed.

Lemma run_evaluation_unfold (k : SK.Kernel) (sched : list nat) (assembly : Assembly.t)
    (prompt : string) (h : Heap) :
  JudgeOrchestrator_run_evaluation k sched assembly prompt h =
    match run_tasks
            (completion_order (length (Assembly.judges assembly)) sched
               (seq (length (concrete_judges h)) (length (Assembly.judges assembly))))
            prompt (prepared k assembly h) with
    | (h4, Ok _) =>
        match SuperJudge_final_verdict (length (super_judges h)) h4 with
        | Ok _ => (h4, SuperJudge_final_verdict (length (super_judges h)) h4)
        | Err e => (h4, Err e)
        end
    | (h4, Err e) => (h4, Err e)
    end.
Proof.
  unfold JudgeOrchestrator_run_evaluation, new_SuperJudge.
  rewrite create_judges_spec. simpl.
  pose proof (register_all_spec k (super_judges h) [] (clock h)
                (Assembly.judges assembly) (concrete_judges h)
                (SuperJudge.__init__ k ("SuperJudge_" +:+ Assembly.id assembly))) as E.
  simpl in E. rewrite E. clear E.
  fold (coordinator k assembly (length (concrete_judges h))).
  fold (prepared k assembly h).
  unfold SuperJudge_evaluate, JudgeEvaluationPlan_run_plan, gather.
  assert (L : super_judges (prepared k assembly h) !! length (super_judges h)
              = Some (coordinator k assembly (length (concrete_judges h)))).
  { apply list_lookup_middle. reflexivity. }
  rewrite L. simpl. rewrite length_seq.
  destruct (run_tasks _ prompt (prepared k assembly h)) as [h4 [[]|e]]; [|reflexivity].
  destruct (SuperJudge_final_verdict (length (super_judges h)) h4) eqn:E;
    simpl; rewrite ?E; reflexivity.
Qed.

Lemma prepared_lookup (k : SK.Kernel) (a : Assembly.t) (h : Heap) (j : nat) :
  In j (seq (length (concrete_judges h)) (length (Assembly.judges a))) ->
  exists jd,
    Assembly.judges a !! (j - length (concrete_judges h)) = Some jd
    /\ concrete_judges (prepared k a h) !! j
       = Some (registered k (length (super_judges h)) jd).
Proof.
  intros Hj. apply in_seq in Hj.
  destruct (lookup_lt_is_Some_2 (Assembly.judges a) (j - length (concrete_judges h)))
    as [jd Hjd]; [lia|].
  exists jd. split; [exact Hjd|]. unfold prepared. simpl.
  rewrite lookup_app_r by lia. rewrite list_lookup_fmap, Hjd. reflexivity.
Qed.

Lemma verdicts_render (vs : list (gmap string string)) :
  Forall is_verdict vs -> exists lines, Forall2 renders vs lines.
Proof.
  induction 1 as [|v vs (o & r & ->) _ (lines & IH)].
  - exists []. constructor.
  - eexists (_ :: lines). constructor; [apply data_renders|exact IH].
Qed.

Lemma final_verdict_lines (o : SuperJudge.t) (lines : list string) :
  Forall2 renders (SuperJudge._evaluations o) lines ->
  SuperJudge.final_verdict o =
    Ok match lines with
       | [] => "[No evaluations received]"
       | _ :: _ => Py.join Py.NL lines
       end.
Proof.
  intros H. destruct (SuperJudge._evaluations o) as [|ev evs] eqn:E.
  - inversion H; subst. apply final_verdict_empty, E.
  - inversion H; subst. apply final_verdict_nonempty; rewrite E; [discriminate|exact H].
Qed.

Lemma Forall2_with_left {A B} (R : A -> B -> Prop) (P : A -> Prop)
    (l : list A) (k : list B) :
  Forall2 R l k -> Forall P l -> Forall2 (fun x y => P x /\ R x y) l k.
Proof.
  induction 1 as [|x y l k HR _ IH]; intros HP; [constructor|].
  inversion HP; subst. constructor; auto.
Qed.

(** The tasks of a call, run on the prepared heap. *)
Lemma run_evaluation_tasks (k : SK.Kernel) (sched : list nat) (a : Assembly.t)
    (prompt : string) (h h4 : Heap) (r : result unit) :
  let base := length (concrete_judges h) in
  let order := completion_order (length (Assembly.judges a)) sched
                 (seq base (length (Assembly.judges a))) in
  run_tasks order prompt (prepared k a h) = (h4, r) ->
  exists vs,
    super_judges h4 = super_judges h ++ [extend vs (coordinator k a base)]
    /\ Forall is_verdict vs
    /\ (is_Ok r = true ->
        Forall2 (fun j v => exists jd t res,
                    Assembly.judges a !! (j - base) = Some jd
                    /\ ConcreteJudge.answer (registered k (length (super_judges h)) jd)
                         t prompt = Ok res
                    /\ v = ConcreteJudge.data
                             (registered k (length (super_judges h)) jd) res)
                order vs).
Proof.
  intros base order Hrun.
  assert (Hperm : order ≡ₚ seq base (length (Assembly.judges a))).
  { apply completion_order_Permutation, length_seq. }
  assert (Hin : Forall (fun j => In j (seq base (length (Assembly.judges a)))) order).
  { apply Forall_forall. intros j Hj. apply list_elem_of_In.
    rewrite <- Hperm. exact Hj. }
  apply (run_tasks_registered order (length (super_judges h))) in Hrun
    as (_ & vs & Hss & Hvs & Hok).
  - exists vs. split; [|split; [exact Hvs|]].
    + rewrite Hss. unfold prepared. simpl. apply alter_middle.
    + intros Hr. specialize (Hok Hr).
      eapply Forall2_impl; [exact (Forall2_with_left _ _ _ _ Hok Hin)|]. cbv beta.
      intros j v (Hj & o & t & res & Ho & Hans & ->).
      destruct (prepared_lookup k a h j Hj) as (jd & Hjd & Hlook).
      rewrite Hlook in Ho. injection Ho as <-.
      exists jd, t, res. auto.
  - intros j Hj. rewrite Forall_forall in Hin.
    destruct (prepared_lookup k a h j) as (jd & _ & Hlook).
    { apply Hin, list_elem_of_In, Hj. }
    exists (registered k (length (super_judges h)) jd). split; [exact Hlook|reflexivity].
Qed.

(** A successful run of tasks that all report to [sj]: the task that
    completes in place [p] runs at ticket [clock h + p], and its verdict
    is the [p]-th one that the coordinator receives. *)
Lemma run_tasks_tickets (order : list loc) (sj : loc) (prompt : string) :
  forall h h',
    (forall j, In j order ->
       exists o, concrete_judges h !! j = Some o /\ ConcreteJudge.mediator o = Some sj) ->
    run_tasks order prompt h = (h', Ok tt) ->
    exists vs,
      super_judges h' = alter (extend vs) sj (super_judges h)
      /\ length vs = length order
      /\ forall p j, order !! p = Some j ->
           exists o res,
             concrete_judges h !! j = Some o
             /\ ConcreteJudge.answer o (clock h + p) prompt = Ok res
             /\ vs !! p = Some (ConcreteJudge.data o res).
Proof.
  induction order as [|j order IH]; intros h h' Hreg Hrun; simpl in Hrun.
  - injection Hrun as <-. exists []. split.
    + symmetry. apply list_alter_id, extend_nil.
    + split; [reflexivity|]. intros p j Hp. discriminate Hp.
  - destruct (Hreg j (or_introl eq_refl)) as (o & Ho & Hm).
    rewrite (evaluate_registered j sj o prompt h Ho Hm) in Hrun.
    destruct (ConcreteJudge.answer o (clock h) prompt) as [res|e] eqn:Hans;
      [|discriminate Hrun].
    apply IH in Hrun as (vs & Hss & Hlen & Hall); simpl in *.
    + exists (ConcreteJudge.data o res :: vs). split.
      { rewrite Hss, list_alter_alter_eq. apply list_alter_ext; [|reflexivity].
        intros x _. simpl. rewrite extend_extend. reflexivity. }
      split; [simpl; rewrite Hlen; reflexivity|].
      intros [|p] j' Hp; simpl in Hp.
      * injection Hp as <-. exists o, res. rewrite Nat.add_0_r. auto.
      * destruct (Hall p j' Hp) as (o' & res' & Ho' & Hans' & Hv).
        exists o', res'. split; [exact Ho'|]. split; [|exact Hv].
        replace (clock h + S p) with (S (clock h + p)) by lia. exact Hans'.
    + intros j' Hj'. apply Hreg. right. exact Hj'.
Qed.

(** A successful call, in full: the coordinator has collected one verdict
    for each completion, the one that the judge of that task sent with the
    answer it got at the ticket of its completion, and the report is made
    of the lines of these verdicts. *)
Lemma run_evaluation_exact (k : SK.Kernel) (sched : list nat) (a : Assembly.t)
    (prompt : string) (h h' : Heap) (report : string) :
  let base := length (concrete_judges h) in
  let sj := length (super_judges h) in
  let order := completion_order (length (Assembly.judges a)) sched
                 (seq base (length (Assembly.judges a))) in
  JudgeOrchestrator_run_evaluation k sched a prompt h = (h', Ok report) ->
  exists vs lines,
    super_judges h' = super_judges h ++ [extend vs (coordinator k a base)]
    /\ length vs = length (Assembly.judges a)
    /\ length lines = length (Assembly.judges a)
    /\ (forall p j, order !! p = Some j ->
          exists jd v l,
            Assembly.judges a !! (j - base) = Some jd
            /\ vs !! p = Some v /\ lines !! p = Some l
            /\ sends k sj prompt (clock h + p) jd v l)
    /\ report = match lines with
                | [] => "[No evaluations received]"
                | _ :: _ => Py.join Py.NL lines
                end.
Proof.
  intros base sj order. rewrite run_evaluation_unfold. fold base. fold order.
  destruct (run_tasks order prompt (prepared k a h)) as [h4 [[]|e]] eqn:Hrun;
    [|discriminate].
  assert (Hperm : order ≡ₚ seq base (length (Assembly.judges a))).
  { apply completion_order_Permutation, length_seq. }
  assert (Hin : forall j, In j order -> In j (seq base (length (Assembly.judges a)))).
  { intros j Hj. apply list_elem_of_In. rewrite <- Hperm. apply list_elem_of_In, Hj. }
  assert (Hlen : length order = length (Assembly.judges a)).
  { rewrite Hperm. apply length_seq. }
  apply (run_tasks_tickets order sj) in Hrun as (vs & Hss & Hvs & Hall).
  2:{ intros j Hj. destruct (prepared_lookup k a h j (Hin j Hj)) as (jd & _ & Hlook).
      exists (registered k sj jd). split; [exact Hlook|reflexivity]. }
  assert (Hsent : forall p j, order !! p = Some j ->
            exists jd res,
              Assembly.judges a !! (j - base) = Some jd
              /\ ConcreteJudge.answer (registered k sj jd) (clock h + p) prompt = Ok res
              /\ vs !! p = Some (ConcreteJudge.data (registered k sj jd) res)).
  { intros p j Hp. destruct (Hall p j Hp) as (o & res & Ho & Hans & Hv).
    assert (Hj : In j order) by (apply list_elem_of_In, list_elem_of_lookup; eauto).
    destruct (prepared_lookup k a h j (Hin j Hj)) as (jd & Hjd & Hlook).
    rewrite Hlook in Ho. injection Ho as <-. exists jd, res. auto. }
  assert (Hverdicts : Forall is_verdict vs).
  { apply Forall_lookup. intros p v Hv.
    destruct (lookup_lt_is_Some_2 order p) as [j Hp].
    { rewrite <- Hvs. apply lookup_lt_Some in Hv. exact Hv. }
    destruct (Hsent p j Hp) as (jd & res & _ & _ & Hv').
    rewrite Hv' in Hv. injection Hv as <-. eexists _, _. reflexivity. }
  destruct (verdicts_render vs Hverdicts) as (lines & Hlines).
  assert (Hss' : super_judges h4 = super_judges h ++ [extend vs (coordinator k a base)]).
  { rewrite Hss. unfold prepared, sj. simpl. apply alter_middle. }
  unfold SuperJudge_final_verdict. rewrite Hss'.
  rewrite list_lookup_middle by reflexivity.
  rewrite (final_verdict_lines (extend vs (coordinator k a base)) lines Hlines).
  intros [= <- <-]. exists vs, lines.
  split; [exact Hss'|]. split; [congruence|]. split.
  { rewrite <- (Forall2_length _ _ _ Hlines). congruence. }
  split; [|reflexivity].
  intros p j Hp. destruct (Hsent p j Hp) as (jd & res & Hjd & Hans & Hv).
  destruct (Forall2_lookup_l _ _ _ _ _ Hlines Hv) as (l & Hl & (n & r & Hn & Hr & ->)).
  change (ConcreteJudge.data (registered k sj jd) res !! "judge_name")
    with (Some (Judge.name jd)) in Hn.
  change (ConcreteJudge.data (registered k sj jd) res !! "result")
    with (Some res) in Hr.
  injection Hn as <-. injection Hr as <-.
  exists jd, (ConcreteJudge.data (registered k sj jd) res), (Judge.name jd +:+ " => " +:+ res).
  split; [exact Hjd|]. split; [exact Hv|]. split; [exact Hl|].
  exists res. auto.
Qed.

Lemma positions_of_seq (base n : nat) :
  map (fun j => j - base) (seq base n) = seq 0 n.
Proof.
  apply list_eq. intros i.
  change (map (fun j => j - base) (seq base n)) with ((fun j => j - base) <$> seq base n).
  rewrite list_lookup_fmap.
  destruct (decide (i < n)) as [Hi|Hi].
  - rewrite !lookup_seq_lt by exact Hi. simpl. f_equal. lia.
  - rewrite !lookup_seq_ge by lia. reflexivity.
Qed.

(** C2: when [run_evaluation] returns a report for a panel of N judges,
    the coordinator of the call has collected exactly N verdicts and the
    report is made of exactly N lines.  The places of the report
    correspond one to one to the judges of the panel ([order] lists every
    position of the panel once): the verdict and the line in place [p]
    are those that the judge [order !! p] sent with the answer it got in
    this run, so no judge is left out and none shows twice.  The sentinel
    stands for the report of no line. *)
Theorem C2_fan_out_completeness (k : SK.Kernel) (sched : list nat) (a : Assembly.t)
    (prompt : string) (h h' : Heap) (report : string) :
  JudgeOrchestrator_run_evaluation k sched a prompt h = (h', Ok report) ->
  exists (order : list nat) (vs : list (gmap string string)) (lines : list string),
    order ≡ₚ seq 0 (length (Assembly.judges a))
    /\ super_judges h' !! length (super_judges h)
       = Some (extend vs (coordinator k a (length (concrete_judges h))))
    /\ length vs = length (Assembly.judges a)
    /\ length lines = length (Assembly.judges a)
    /\ (forall p i, order !! p = Some i ->
          exists jd v l,
            Assembly.judges a !! i = Some jd
            /\ vs !! p = Some v /\ lines !! p = Some l
            /\ sends k (length (super_judges h)) prompt (clock h + p) jd v l)
    /\ report = match lines with
                | [] => "[No evaluations received]"
                | _ :: _ => Py.join Py.NL lines
                end.
Proof.
  intros Hrun.
  apply run_evaluation_exact in Hrun as (vs & lines & Hss & Hvs & Hlines & Hall & Hrep).
  set (base := length (concrete_judges h)) in *.
  set (order := completion_order _ sched _) in *.
  exists (map (fun j => j - base) order), vs, lines.
  split.
  { rewrite <- (positions_of_seq base). apply Permutation_map.
    apply completion_order_Permutation, length_seq. }
  split; [rewrite Hss; apply list_lookup_middle; reflexivity|].
  split; [exact Hvs|]. split; [exact Hlines|]. split; [|exact Hrep].
  intros p i Hp.
  change (map (fun j => j - base) order) with ((fun j => j - base) <$> order) in Hp.
  rewrite list_lookup_fmap in Hp.
  destruct (order !! p) as [j|] eqn:Hj; [|discriminate Hp].
  injection Hp as <-. exact (Hall p j Hj).
Qed.

Lemma C2_fan_out_completeness_witness :
  let k := replying_kernel "Looks fine." in
  let a := Assembly.mk "p1" [judge_a; judge_b] ["qa"] in
  let run := JudgeOrchestrator_run_evaluation k [1] a "Evaluate: hello" empty_heap in
  let report := "Judge2 => Looks fine." +:+ Py.NL +:+ "Judge1 => Looks fine." in
  run = (fst run, Ok report)
  /\ exists (order : list nat) (vs : list (gmap string string)) (lines : list string),
       order ≡ₚ seq 0 (length (Assembly.judges a))
       /\ super_judges (fst run) !! length (super_judges empty_heap)
          = Some (extend vs (coordinator k a (length (concrete_judges empty_heap))))
       /\ length vs = length (Assembly.judges a)
       /\ length lines = length (Assembly.judges a)
       /\ (forall p i, order !! p = Some i ->
             exists jd v l,
               Assembly.judges a !! i = Some jd
               /\ vs !! p = Some v /\ lines !! p = Some l
               /\ sends k (length (super_judges empty_heap)) "Evaluate: hello"
                    (clock empty_heap + p) jd v l)
       /\ report = match lines with
                   | [] => "[No evaluations received]"
                   | _ :: _ => Py.join Py.NL lines
                   end.
Proof.
  intros k a run report.
  assert (H : run = (fst run, Ok report)) by (vm_compute; reflexivity).
  split; [exact H|].
  exact (C2_fan_out_completeness k [1] a "Evaluate: hello" empty_heap (fst run) report H).
Defined.

(** ** Failing evaluations *)

(** A task that fails whenever it runs makes the run of the tasks fail. *)
Lemma run_tasks_fails (order : list loc) (prompt : string) (j0 : loc)
    (o0 : ConcreteJudge.t) :
  (forall t, is_Ok (ConcreteJudge.answer o0 t prompt) = false) ->
  forall h,
    In j0 order ->
    concrete_judges h !! j0 = Some o0 ->
    exists e, snd (run_tasks order prompt h) = Err e.
Proof.
  intros Hfail. induction order as [|j order IH]; intros h Hin Ho0; [destruct Hin|].
  simpl.
  destruct (ConcreteJudge_evaluate j prompt h) as [h1 [[]|e]] eqn:E; [|eauto].
  pose proof (evaluate_concrete_judges j prompt h) as Hcs. rewrite E in Hcs. simpl in Hcs.
  destruct Hin as [-> | Hin].
  - exfalso. unfold ConcreteJudge_evaluate in E. rewrite Ho0 in E.
    specialize (Hfail (clock h)).
    destruct (ConcreteJudge.answer o0 (clock h) prompt); [discriminate Hfail|].
    discriminate E.
  - apply IH; [exact Hin|]. rewrite Hcs. exact Ho0.
Qed.

(** The task of a panel's judge: its place in the order of completion and
    the object that runs. *)
Lemma panel_judge_task (k : SK.Kernel) (sched : list nat) (a : Assembly.t) (h : Heap)
    (jd : Judge.t) :
  In jd (Assembly.judges a) ->
  exists j,
    In j (completion_order (length (Assembly.judges a)) sched
            (seq (length (concrete_judges h)) (length (Assembly.judges a))))
    /\ concrete_judges (prepared k a h) !! j
       = Some (registered k (length (super_judges h)) jd).
Proof.
  intros Hin. apply list_elem_of_In, list_elem_of_lookup in Hin as [i Hi].
  set (base := length (concrete_judges h)).
  assert (Hseq : In (base + i) (seq base (length (Assembly.judges a)))).
  { apply in_seq. apply lookup_lt_Some in Hi. lia. }
  destruct (prepared_lookup k a h (base + i) Hseq) as (jd' & Hjd' & Hlook).
  replace (base + i - length (concrete_judges h)) with i in Hjd' by (unfold base; lia).
  rewrite Hi in Hjd'. injection Hjd' as <-.
  exists (base + i). split; [|exact Hlook].
  apply list_elem_of_In.
  rewrite (completion_order_Permutation _ sched _ (length_seq _ _)).
  apply list_elem_of_In, Hseq.
Qed.

Lemma malformed_metaprompt_raises (jd : Judge.t) (k : SK.Kernel) (m : option loc)
    (t : nat) (prompt msg : string) :
  Json.loads (Judge.metaprompt jd) = inl msg ->
  ConcreteJudge.answer (ConcreteJudge.mk jd k m) t prompt
  = Err (ValueError ("Invalid JSON in metaprompt: " +:+ msg)).
Proof.
  intros H. unfold ConcreteJudge.answer, ConcreteJudge.response, ConcreteJudge.system_text.
  simpl. rewrite H. reflexivity.
Qed.

Lemma evaluate_Ok (j : loc) (prompt : string) (h h1 : Heap) (u : unit) :
  ConcreteJudge_evaluate j prompt h = (h1, Ok u) ->
  clock h1 = S (clock h) /\ concrete_judges h1 = concrete_judges h.
Proof.
  unfold ConcreteJudge_evaluate.
  destruct (concrete_judges h !! j) as [o|]; [|discriminate].
  destruct (ConcreteJudge.answer o (clock h) prompt); [|discriminate].
  destruct (ConcreteJudge.mediator o); intros [= <- _]; split; reflexivity.
Qed.

(** The task that completes in place [i] runs with the ticket of that
    moment; if its answer is an exception, the run of the tasks fails,
    there or earlier. *)
Lemma run_tasks_fails_at (order : list loc) (prompt : string) :
  forall (h : Heap) (i : nat) (j : loc) (o : ConcreteJudge.t),
    order !! i = Some j ->
    concrete_judges h !! j = Some o ->
    is_Ok (ConcreteJudge.answer o (clock h + i) prompt) = false ->
    exists e, snd (run_tasks order prompt h) = Err e.
Proof.
  induction order as [|j0 order IH]; intros h i j o Hi Ho Hfail; [discriminate Hi|].
  simpl.
  destruct (ConcreteJudge_evaluate j0 prompt h) as [h1 [[]|e]] eqn:E; [|eauto].
  destruct (evaluate_Ok _ _ _ _ _ E) as [Hclock Hcs].
  destruct i as [|i]; simpl in Hi.
  - exfalso. injection Hi as ->.
    unfold ConcreteJudge_evaluate in E. rewrite Ho in E.
    rewrite Nat.add_0_r in Hfail.
    destruct (ConcreteJudge.answer o (clock h) prompt); [discriminate Hfail|].
    discriminate E.
  - apply (IH h1 i j o Hi); [rewrite Hcs; exact Ho|].
    rewrite Hclock. replace (S (clock h) + i) with (clock h + S i) by lia.
    exact Hfail.
Qed.

(** C3: when the evaluation of one judge of the panel raises, be it the
    [i]-th to complete, [run_evaluation] raises for the whole call,
    whatever the other judges are and in whatever order the evaluations
    complete: no report is returned, partial or other. *)
Theorem C3_one_failure_fails_the_call (k : SK.Kernel) (sched : list nat)
    (a : Assembly.t) (prompt : string) (h : Heap) (i : nat) (j : loc) (jd : Judge.t) :
  completion_order (length (Assembly.judges a)) sched
    (seq (length (concrete_judges h)) (length (Assembly.judges a))) !! i = Some j ->
  Assembly.judges a !! (j - length (concrete_judges h)) = Some jd ->
  is_Ok (ConcreteJudge.answer (registered k (length (super_judges h)) jd)
           (clock h + i) prompt) = false ->
  exists e, snd (JudgeOrchestrator_run_evaluation k sched a prompt h) = Err e.
Proof.
  intros Hi Hjd Hfail. rewrite run_evaluation_unfold.
  set (order := completion_order _ sched _) in *.
  (* the task in place [i] is the registered sub-judge built from [jd] *)
  assert (Hin : In j (seq (length (concrete_judges h)) (length (Assembly.judges a)))).
  { apply list_elem_of_In.
    rewrite <- (completion_order_Permutation _ sched _ (length_seq _ _)).
    apply list_elem_of_lookup. exists i. exact Hi. }
  destruct (prepared_lookup k a h j Hin) as (jd' & Hjd' & Hlook).
  rewrite Hjd in Hjd'. injection Hjd' as <-.
  (* so gather raises, there or earlier *)
  destruct (run_tasks_fails_at order prompt (prepared k a h) i j _ Hi Hlook Hfail)
    as [e He].
  destruct (run_tasks order prompt (prepared k a h)) as [h4 [[]|e']];
    simpl in He; [discriminate He|].
  (* and the orchestrator passes the exception on *)
  exists e'. reflexivity.
Qed.

Lemma C3_one_failure_fails_the_call_witness :
  let k := replying_kernel "Looks fine." in
  let a := Assembly.mk "p1" [judge_a; judge_malformed; judge_b] ["qa"] in
  completion_order (length (Assembly.judges a)) [2; 0]
    (seq (length (concrete_judges empty_heap)) (length (Assembly.judges a))) !! 2 = Some 1
  /\ Assembly.judges a !! (1 - length (concrete_judges empty_heap)) = Some judge_malformed
  /\ is_Ok (ConcreteJudge.answer
              (registered k (length (super_judges empty_heap)) judge_malformed)
              (clock empty_heap + 2) "Evaluate: hello") = false
  /\ exists e,
       snd (JudgeOrchestrator_run_evaluation k [2; 0] a "Evaluate: hello" empty_heap)
       = Err e.
Proof.
  intros k a.
  assert (H1 : completion_order (length (Assembly.judges a)) [2; 0]
                 (seq (length (concrete_judges empty_heap)) (length (Assembly.judges a)))
               !! 2 = Some 1) by reflexivity.
  assert (H2 : Assembly.judges a !! (1 - length (concrete_judges empty_heap))
               = Some judge_malformed) by reflexivity.
  assert (H3 : is_Ok (ConcreteJudge.answer
                        (registered k (length (super_judges empty_heap)) judge_malformed)
                        (clock empty_heap + 2) "Evaluate: hello") = false)
    by reflexivity.
  split; [exact H1|]. split; [exact H2|]. split; [exact H3|].
  exact (C3_one_failure_fails_the_call k [2; 0] a "Evaluate: hello" empty_heap 2 1
           judge_malformed H1 H2 H3).
Defined.

(** A judge of the panel whose evaluation raises whenever it runs fails
    the whole call. *)
Lemma failing_judge_fails_the_call (k : SK.Kernel) (sched : list nat)
    (a : Assembly.t) (prompt : string) (h : Heap) (jd : Judge.t) :
  In jd (Assembly.judges a) ->
  (forall t m, is_Ok (ConcreteJudge.answer (ConcreteJudge.mk jd k m) t prompt) = false) ->
  exists e, snd (JudgeOrchestrator_run_evaluation k sched a prompt h) = Err e.
Proof.
  intros Hin Hfail. rewrite run_evaluation_unfold.
  destruct (panel_judge_task k sched a h jd Hin) as (j & Hj & Hlook).
  destruct (run_tasks_fails _ prompt j _
              (fun t => Hfail t (Some (length (super_judges h))))
              (prepared k a h) Hj Hlook) as [e He].
  destruct (run_tasks _ prompt (prepared k a h)) as [h4 [[]|e']];
    simpl in He; [discriminate He|].
  exists e'. reflexivity.
Qed.

(** P5: a judge whose metaprompt is not JSON fails the whole panel. *)
Lemma malformed_metaprompt_fails_the_call (k : SK.Kernel) (sched : list nat)
    (a : Assembly.t) (prompt : string) (h : Heap) (jd : Judge.t) (msg : string) :
  In jd (Assembly.judges a) ->
  Json.loads (Judge.metaprompt jd) = inl msg ->
  exists e, snd (JudgeOrchestrator_run_evaluation k sched a prompt h) = Err e.
Proof.
  intros Hin Hbad. rewrite run_evaluation_unfold.
  destruct (panel_judge_task k sched a h jd Hin) as (j & Hj & Hlook).
  assert (Hfail : forall t,
             is_Ok (ConcreteJudge.answer (registered k (length (super_judges h)) jd)
                      t prompt) = false).
  { intros t. unfold registered.
    rewrite (malformed_metaprompt_raises jd k _ t prompt msg Hbad). reflexivity. }
  destruct (run_tasks_fails _ prompt j _ Hfail (prepared k a h) Hj Hlook) as [e He].
  destruct (run_tasks _ prompt (prepared k a h)) as [h4 [[]|e']];
    simpl in He; [discriminate He|].
  exists e'. reflexivity.
Qed.

(** ** The two sentinels *)

(** C4: a panel of zero judges gives exactly the sentinel, and so does
    [final_verdict] on a coordinator that has collected nothing. *)
Theorem C4_empty_panel_sentinel (k : SK.Kernel) (sched : list nat) (a : Assembly.t)
    (prompt : string) (h : Heap) (self : SuperJudge.t) :
  Assembly.judges a = [] ->
  SuperJudge._evaluations self = [] ->
  snd (JudgeOrchestrator_run_evaluation k sched a prompt h)
    = Ok "[No evaluations received]"
  /\ SuperJudge.final_verdict self = Ok "[No evaluations received]".
Proof.
  intros Hj He. split; [|apply final_verdict_empty, He].
  rewrite run_evaluation_unfold, Hj. simpl.
  unfold SuperJudge_final_verdict, prepared. simpl.
  rewrite list_lookup_middle by reflexivity. reflexivity.
Qed.

Lemma C4_empty_panel_sentinel_witness :
  Assembly.judges (Assembly.mk "p0" [] ["qa"]) = []
  /\ SuperJudge._evaluations (SuperJudge.__init__ silent_kernel "SuperJudge") = []
  /\ snd (JudgeOrchestrator_run_evaluation silent_kernel [] (Assembly.mk "p0" [] ["qa"])
            "Evaluate: hello" empty_heap)
     = Ok "[No evaluations received]"
  /\ SuperJudge.final_verdict (SuperJudge.__init__ silent_kernel "SuperJudge")
     = Ok "[No evaluations received]".
Proof.
  split; [reflexivity|]. split; [reflexivity|].
  exact (C4_empty_panel_sentinel silent_kernel [] (Assembly.mk "p0" [] ["qa"])
           "Evaluate: hello" empty_heap
           (SuperJudge.__init__ silent_kernel "SuperJudge") eq_refl eq_refl).
Defined.

(** C5: when the response of the LLM consists of function-call or
    function-result marker messages and of whitespace-only text messages,
    the result that [evaluate] records with the coordinator is exactly
    "[No output from LLM]". *)
Theorem C5_no_output_sentinel (h : Heap) (self m : loc) (o : ConcreteJudge.t)
    (sj : SuperJudge.t) (prompt : string) (msgs : list SK.ChatMessageContent) :
  concrete_judges h !! self = Some o ->
  ConcreteJudge.mediator o = Some m ->
  super_judges h !! m = Some sj ->
  ConcreteJudge.response o (clock h) prompt = Ok msgs ->
  Forall (fun msg => is_marker msg \/ whitespace_only (SK.content msg)) msgs ->
  ConcreteJudge.result_str msgs = "[No output from LLM]"
  /\ exists h' sj' v,
       ConcreteJudge_evaluate self prompt h = (h', Ok tt)
       /\ super_judges h' !! m = Some sj'
       /\ SuperJudge._evaluations sj' = SuperJudge._evaluations sj ++ [v]
       /\ v !! "judge_id" = Some (Judge.id (ConcreteJudge.judge_data o))
       /\ v !! "judge_name" = Some (Judge.name (ConcreteJudge.judge_data o))
       /\ v !! "result" = Some "[No output from LLM]".
Proof.
  intros Ho Hm Hsj Hresp Hmsgs.
  pose proof (result_str_no_output msgs Hmsgs) as Hres.
  split; [exact Hres|].
  rewrite (evaluate_registered self m o prompt h Ho Hm).
  unfold ConcreteJudge.answer. rewrite Hresp. simpl. rewrite Hres.
  eexists _, (extend [ConcreteJudge.data o "[No output from LLM]"] sj), _.
  split; [reflexivity|]. simpl.
  rewrite list_lookup_alter_eq, Hsj. simpl.
  repeat split; reflexivity.
Qed.

Lemma C5_no_output_sentinel_witness :
  let o := registered marker_kernel 0 judge_a in
  let sj := SuperJudge.mk marker_kernel "SuperJudge" [0] [] None in
  let h := mkHeap [o] [sj] 0 in
  let msgs := [marker_call; blank_text; marker_result] in
  concrete_judges h !! 0 = Some o
  /\ ConcreteJudge.mediator o = Some 0
  /\ super_judges h !! 0 = Some sj
  /\ ConcreteJudge.response o (clock h) "Evaluate: hello" = Ok msgs
  /\ Forall (fun msg => is_marker msg \/ whitespace_only (SK.content msg)) msgs
  /\ ConcreteJudge.result_str msgs = "[No output from LLM]"
  /\ exists h' sj' v,
       ConcreteJudge_evaluate 0 "Evaluate: hello" h = (h', Ok tt)
       /\ super_judges h' !! 0 = Some sj'
       /\ SuperJudge._evaluations sj' = SuperJudge._evaluations sj ++ [v]
       /\ v !! "judge_id" = Some (Judge.id (ConcreteJudge.judge_data o))
       /\ v !! "judge_name" = Some (Judge.name (ConcreteJudge.judge_data o))
       /\ v !! "result" = Some "[No output from LLM]".
Proof.
  intros o sj h msgs.
  assert (H1 : concrete_judges h !! 0 = Some o) by reflexivity.
  assert (H2 : ConcreteJudge.mediator o = Some 0) by reflexivity.
  assert (H3 : super_judges h !! 0 = Some sj) by reflexivity.
  assert (H4 : ConcreteJudge.response o (clock h) "Evaluate: hello" = Ok msgs)
    by (vm_compute; reflexivity).
  assert (H5 : Forall (fun msg => is_marker msg \/ whitespace_only (SK.content msg)) msgs).
  { apply Forall_cons. split.
    { left. exists SK.FunctionCallContent. split; [left; reflexivity|left; reflexivity]. }
    apply Forall_cons. split.
    { right. unfold whitespace_only. simpl. repeat constructor. }
    apply Forall_cons. split; [|apply Forall_nil_2].
    left. exists SK.FunctionResultContent.
    split; [right; left; reflexivity|right; reflexivity]. }
  repeat (split; [assumption|]).
  exact (C5_no_output_sentinel h 0 0 o sj "Evaluate: hello" msgs H1 H2 H3 H4 H5).
Defined.

(** ** The instruction payload at evaluation time *)

Lemma missing_text_uses_placeholder (o : ConcreteJudge.t) (ms : list (Json.ustring * Json.json)) :
  Json.loads (Judge.metaprompt (ConcreteJudge.judge_data o)) = inr (Json.JObject ms) ->
  Json.lookup_member (Json.ustr "text") ms = None ->
  ConcreteJudge.system_text o = Ok (Json.JString (Json.ustr "System Prompt Missing")).
Proof.
  intros Hl Hm. unfold ConcreteJudge.system_text. rewrite Hl. simpl. rewrite Hm.
  reflexivity.
Qed.

Lemma unparseable_metaprompt_raises (o : ConcreteJudge.t) (msg : string) :
  Json.loads (Judge.metaprompt (ConcreteJudge.judge_data o)) = inl msg ->
  ConcreteJudge.system_text o = Err (ValueError ("Invalid JSON in metaprompt: " +:+ msg)).
Proof. intros Hl. unfold ConcreteJudge.system_text. rewrite Hl. reflexivity. Qed.

(** C6 at a judge whose metaprompt is the JSON array ["text","json"]: the
    metaprompt is JSON without an instruction field, which the validator
    of the metaprompt lets pass, and [evaluate] raises an [AttributeError]
    where the claim has it go on with the placeholder text; so it does for
    every metaprompt that is JSON and no object. *)
Theorem C6_array_metaprompt_raises (k : SK.Kernel) (m : option loc) (t : nat)
    (prompt : string) :
  Json.loads (Judge.metaprompt judge_array)
  = inr (Json.JArray [Json.JString (Json.ustr "text"); Json.JString (Json.ustr "json")])
  /\ Judge.metaprompt_must_be_json_serializable (Judge.metaprompt judge_array)
     = Ok (Judge.metaprompt judge_array)
  /\ ConcreteJudge.answer (ConcreteJudge.mk judge_array k m) t prompt
     = Err (AttributeError "'list' object has no attribute 'get'")
  /\ forall (jd : Judge.t) (v : Json.json),
       Json.loads (Judge.metaprompt jd) = inr v ->
       (forall ms, v <> Json.JObject ms) ->
       exists msg,
         ConcreteJudge.answer (ConcreteJudge.mk jd k m) t prompt
         = Err (AttributeError msg).
Proof.
  split; [reflexivity|]. split; [reflexivity|]. split; [reflexivity|].
  intros jd v Hv Hobj.
  unfold ConcreteJudge.answer, ConcreteJudge.response, ConcreteJudge.system_text.
  simpl. rewrite Hv. simpl.
  destruct v; simpl; eauto.
  exfalso. eapply Hobj. reflexivity.
Qed.

(** ** Construction of the models *)

Lemma both_Valid {A B} (c : checked A) (d : checked B) (a : A) (b : B) :
  both c d = Valid (a, b) <-> c = Valid a /\ d = Valid b.
Proof.
  split.
  - destruct c as [a'|errs|e], d as [b'|errs'|e']; simpl; try discriminate.
    intros [= -> ->]. auto.
  - intros [-> ->]. reflexivity.
Qed.

Lemma max_length_not_Raised (n : nat) (v : string) (e : exn) :
  max_length n v <> Raised e.
Proof. unfold max_length. destruct (n <? Py.len v); discriminate. Qed.

Lemma required_Valid {A B} (field : string) (arg : option A) (check : A -> checked B)
    (b : B) :
  required field arg check = Valid b <-> exists v, arg = Some v /\ check v = Valid b.
Proof.
  unfold required. split.
  - destruct arg as [v|]; [|discriminate].
    destruct (check v) eqn:E; try discriminate. intros [= <-]. eauto.
  - intros (v & -> & ->). reflexivity.
Qed.

Lemma required_Raised {A B} (field : string) (arg : option A) (check : A -> checked B)
    (e : exn) :
  required field arg check = Raised e <-> exists v, arg = Some v /\ check v = Raised e.
Proof.
  unfold required. split.
  - destruct arg as [v|]; [|discriminate].
    destruct (check v) eqn:E; try discriminate. intros [= <-]. eauto.
  - intros (v & -> & ->). reflexivity.
Qed.

(** The field [model]: a failure when the argument is missing or no URL,
    and the exception of its validator when it is a URL. *)
Lemma model_field (HttpUrl : string -> bool) (arg : option string) :
  required "model" arg
    (fun v => after_validator Judge.model_must_be_azure_url (Judge.http_url HttpUrl v))
  = match arg with
    | None => Invalid ["model: Field required"]
    | Some v =>
        if HttpUrl v
        then Raised (AttributeError "'HttpUrl' object has no attribute 'startswith'")
        else Invalid ["model: Input should be a valid URL"]
    end.
Proof.
  destruct arg as [v|]; [|reflexivity].
  unfold required, Judge.http_url. destruct (HttpUrl v); reflexivity.
Qed.

Lemma id_field_not_Raised (field : string) (arg : option string) (e : exn) :
  required field arg Valid <> Raised e.
Proof. destruct arg; discriminate. Qed.

Lemma name_field_not_Raised (arg : option string) (e : exn) :
  required "name" arg (max_length 16) <> Raised e.
Proof.
  intros H. apply required_Raised in H as (v & _ & H).
  exact (max_length_not_Raised _ _ _ H).
Qed.

(** Arguments whose [model] is accepted as a URL: the construction ends
    with the [AttributeError] of the validator, whatever the other
    arguments are. *)
Lemma Judge_init_raises (HttpUrl : string -> bool) (a : Judge.args) (m : string) :
  Judge.arg_model a = Some m ->
  HttpUrl m = true ->
  Judge.init HttpUrl a
  = Err (AttributeError "'HttpUrl' object has no attribute 'startswith'").
Proof.
  intros Hm Hu. unfold Judge.init. rewrite model_field, Hm, Hu.
  destruct (required "id" _ _) as [i|e1|x1] eqn:E1;
    [| |exfalso; exact (id_field_not_Raised _ _ _ E1)];
    (destruct (required "name" _ _) as [n|e2|x2] eqn:E2;
     [| |exfalso; exact (name_field_not_Raised _ _ E2)]);
    reflexivity.
Qed.

(** All other arguments are rejected with a [ValidationError]. *)
Lemma Judge_init_rejects (HttpUrl : string -> bool) (a : Judge.args) :
  match Judge.arg_model a with
  | Some m => HttpUrl m = false
  | None => True
  end ->
  exists errs, Judge.init HttpUrl a = Err (ValidationError errs).
Proof.
  intros Hm. unfold Judge.init. rewrite model_field.
  assert (E : exists errs,
             match Judge.arg_model a with
             | Some v =>
                 if HttpUrl v
                 then Raised (AttributeError "'HttpUrl' object has no attribute 'startswith'")
                 else Invalid ["model: Input should be a valid URL"]
             | None => Invalid ["model: Field required"]
             end = Invalid (A := Url.t) errs).
  { destruct (Judge.arg_model a) as [v|]; [rewrite Hm|]; eauto. }
  destruct E as [errs ->].
  destruct (required "id" _ _) as [i|e1|x1] eqn:E1;
    [| |exfalso; exact (id_field_not_Raised _ _ _ E1)];
    (destruct (required "name" _ _) as [n|e2|x2] eqn:E2;
     [| |exfalso; exact (name_field_not_Raised _ _ E2)]);
    destruct (required "metaprompt" _ _) as [p|e3|x3] eqn:E3; simpl; eauto.
  all: exfalso; apply required_Raised in E3 as (v & _ & E3);
    unfold after_validator in E3;
    destruct (max_length 60 v) as [w|errs'|x] eqn:Ew; try discriminate E3;
    [unfold Judge.metaprompt_must_be_json_serializable in E3;
     destruct (Json.loads w); [discriminate E3|];
     destruct (negb _); discriminate E3
    |exact (max_length_not_Raised _ _ _ Ew)].
Qed.

(** So the constructor returns no judge. *)
Lemma Judge_init_not_Ok (HttpUrl : string -> bool) (a : Judge.args) (j : Judge.t) :
  Judge.init HttpUrl a <> Ok j.
Proof.
  intros H.
  destruct (Judge.arg_model a) as [m|] eqn:Hm.
  - destruct (HttpUrl m) eqn:Hu.
    + rewrite (Judge_init_raises HttpUrl a m Hm Hu) in H. discriminate H.
    + destruct (Judge_init_rejects HttpUrl a) as [errs E]; [rewrite Hm; exact Hu|].
      rewrite E in H. discriminate H.
  - destruct (Judge_init_rejects HttpUrl a) as [errs E]; [rewrite Hm; exact I|].
    rewrite E in H. discriminate H.
Qed.

(** C7 at the arguments of a judge with a valid instruction payload: the
    metaprompt is JSON with a textual instruction field, and the
    constructor raises an [AttributeError] where the claim has it succeed.
    The exception is that of the validator of [model], which asks the
    validated URL for a method that only a [str] has; it is raised before
    the metaprompt is looked at, so that no arguments construct a
    [Judge]. *)
Theorem C7_judge_construction_raises (HttpUrl : string -> bool) :
  HttpUrl "https://x/m1" = true ->
  let payload := Json.dq "{'text':'Be harsh','json':''}" in
  has_text_field payload
  /\ Judge.metaprompt_must_be_json_serializable payload = Ok payload
  /\ (exists msg,
        Judge.init HttpUrl
          (Judge.mk_args (Some "1") (Some "Judge1") (Some "https://x/m1") (Some payload))
        = Err (AttributeError msg))
  /\ forall (a : Judge.args) (j : Judge.t), Judge.init HttpUrl a <> Ok j.
Proof.
  intros Hu payload. split.
  - eexists _, _. split; reflexivity.
  - split; [reflexivity|]. split.
    + eexists. apply (Judge_init_raises HttpUrl _ "https://x/m1"); [reflexivity|exact Hu].
    + intros a j. apply Judge_init_not_Ok.
Qed.

Lemma C7_judge_construction_raises_witness :
  (fun _ : string => true) "https://x/m1" = true
  /\ has_text_field (Json.dq "{'text':'Be harsh','json':''}")
  /\ Judge.metaprompt_must_be_json_serializable (Json.dq "{'text':'Be harsh','json':''}")
     = Ok (Json.dq "{'text':'Be harsh','json':''}")
  /\ (exists msg,
        Judge.init (fun _ => true)
          (Judge.mk_args (Some "1") (Some "Judge1") (Some "https://x/m1")
                         (Some (Json.dq "{'text':'Be harsh','json':''}")))
        = Err (AttributeError msg))
  /\ forall (a : Judge.args) (j : Judge.t), Judge.init (fun _ => true) a <> Ok j.
Proof.
  split; [reflexivity|].
  exact (C7_judge_construction_raises (fun _ => true) eq_refl).
Defined.

(** ** The scenario of one judge *)

(** P1: the report of a panel of one judge is that judge's line. *)
Lemma single_judge_passthrough (k : SK.Kernel) (sched : list nat) (a : Assembly.t)
    (prompt : string) (h : Heap) (jd : Judge.t) (msgs : list SK.ChatMessageContent) :
  Assembly.judges a = [jd] ->
  ConcreteJudge.response (registered k (length (super_judges h)) jd) (clock h) prompt
    = Ok msgs ->
  snd (JudgeOrchestrator_run_evaluation k sched a prompt h)
    = Ok (Judge.name jd +:+ " => " +:+ ConcreteJudge.result_str msgs).
Proof.
  intros Hj Hresp. rewrite run_evaluation_unfold, Hj. simpl.
  assert (Hlook : concrete_judges (prepared k a h) !! length (concrete_judges h)
                  = Some (registered k (length (super_judges h)) jd)).
  { unfold prepared. simpl. rewrite Hj. apply list_lookup_middle. reflexivity. }
  rewrite (evaluate_registered _ (length (super_judges h)) _ prompt _ Hlook eq_refl).
  unfold ConcreteJudge.answer. simpl. rewrite Hresp. simpl.
  unfold SuperJudge_final_verdict. simpl. rewrite alter_middle.
  rewrite list_lookup_middle by reflexivity. reflexivity.
Qed.

(** Had the panel of the scenario been constructed, the orchestrator
    would return the line of the scenario. *)
Lemma scenario_report (k : SK.Kernel) (sched : list nat) (h : Heap) :
  ConcreteJudge.response
    (registered k (length (super_judges h))
       (Judge.mk "1" "Judge1" "https://x/m1" (Json.dq "{'text':'Be harsh'}")))
    (clock h) "Evaluate: hello"
    = Ok [SK.mk_message [SK.TextContent "Looks fine."] "Looks fine."] ->
  snd (JudgeOrchestrator_run_evaluation k sched scenario_panel "Evaluate: hello" h)
    = Ok "Judge1 => Looks fine.".
Proof.
  intros H.
  rewrite (single_judge_passthrough k sched scenario_panel _ h _ _ eq_refl H).
  reflexivity.
Qed.

(** What validating the items of [judges] gives. *)
Lemma validate_judges_Valid (HttpUrl : string -> bool) (jas : list Judge.args) :
  forall js,
    Assembly.validate_judges HttpUrl jas = Valid js
    <-> Forall2 (fun ja j => Judge.init HttpUrl ja = Ok j) jas js.
Proof.
  induction jas as [|ja jas IH]; intros js; simpl.
  - split.
    + intros [= <-]. constructor.
    + intros H. inversion H. reflexivity.
  - split.
    + destruct (both _ _) as [[v vs]|errs|e] eqn:E; try discriminate.
      intros [= <-]. apply both_Valid in E as [Ej Ev].
      constructor; [|apply IH, Ev].
      destruct (Judge.init HttpUrl ja) as [j|[]]; try discriminate Ej.
      injection Ej as ->. reflexivity.
    + intros H. inversion H as [|? j ? js' Hj Hjs]; subst.
      apply IH in Hjs. rewrite Hj, Hjs. reflexivity.
Qed.

(** A list with an item whose [model] is accepted as a URL: validating it
    ends with the [AttributeError] of that validator. *)
Lemma validate_judges_raises (HttpUrl : string -> bool) (jas : list Judge.args)
    (ja : Judge.args) (m : string) :
  In ja jas ->
  Judge.arg_model ja = Some m ->
  HttpUrl m = true ->
  Assembly.validate_judges HttpUrl jas
  = Raised (AttributeError "'HttpUrl' object has no attribute 'startswith'").
Proof.
  intros Hin Hm Hu. induction jas as [|ja' jas IH]; [destruct Hin|]. simpl.
  destruct (Judge.arg_model ja') as [m'|] eqn:Hm'.
  - destruct (HttpUrl m') eqn:Hu'.
    + rewrite (Judge_init_raises HttpUrl ja' m' Hm' Hu'). reflexivity.
    + destruct (Judge_init_rejects HttpUrl ja') as [errs E]; [rewrite Hm'; exact Hu'|].
      rewrite E. destruct Hin as [->|Hin]; [congruence|].
      rewrite (IH Hin). reflexivity.
  - destruct (Judge_init_rejects HttpUrl ja') as [errs E]; [rewrite Hm'; exact I|].
    rewrite E. destruct Hin as [->|Hin]; [congruence|].
    rewrite (IH Hin). reflexivity.
Qed.

(** A document with such an item among its judges: the construction of
    the [Assembly] ends with that exception, whatever id and roles are. *)
Lemma Assembly_init_raises (HttpUrl : string -> bool) (args : Assembly.args)
    (jas : list Judge.args) (ja : Judge.args) (m : string) :
  Assembly.arg_judges args = Some jas ->
  In ja jas ->
  Judge.arg_model ja = Some m ->
  HttpUrl m = true ->
  Assembly.init HttpUrl args
  = Err (AttributeError "'HttpUrl' object has no attribute 'startswith'").
Proof.
  intros Hj Hin Hm Hu. unfold Assembly.init. rewrite Hj.
  unfold required at 2. rewrite (validate_judges_raises HttpUrl jas ja m Hin Hm Hu).
  destruct (required "id" _ _) as [i|e1|x1] eqn:E1; [reflexivity|reflexivity|].
  exfalso. exact (id_field_not_Raised _ _ _ E1).
Qed.

(** C8 at the panel of the scenario: constructing it raises, with the
    [AttributeError] of the validator of [model] when the model is
    accepted as a URL, so there is no panel on which [run_evaluation]
    could return "Judge1 => Looks fine.".  The validator of the
    metaprompt rejects the payload of the scenario as well, for it does not
    contain the word json.  On the panel as a value the orchestrator does
    return the line of the scenario. *)
Theorem C8_scenario_panel_is_rejected (HttpUrl : string -> bool) :
  (exists e,
      Assembly.init HttpUrl scenario_panel_args = Err e
      /\ (HttpUrl "https://x/m1" = true -> exists msg, e = AttributeError msg))
  /\ Judge.metaprompt_must_be_json_serializable (Json.dq "{'text':'Be harsh'}")
     = Err (ValueError "metaprompt must contain the format (text, json)")
  /\ forall (sched : list nat) (h : Heap),
       snd (JudgeOrchestrator_run_evaluation (replying_kernel "Looks fine.") sched
              scenario_panel "Evaluate: hello" h)
       = Ok "Judge1 => Looks fine.".
Proof.
  split; [|split; [reflexivity|]].
  - destruct (HttpUrl "https://x/m1") eqn:Hu.
    + eexists. split; [|eauto].
      apply (Assembly_init_raises HttpUrl scenario_panel_args [scenario_judge_args]
               scenario_judge_args "https://x/m1"); [reflexivity|left|reflexivity|exact Hu];
        reflexivity.
    + unfold Assembly.init, scenario_panel_args, scenario_judge_args. simpl.
      unfold Judge.init. rewrite model_field. simpl. rewrite Hu. simpl.
      eexists. split; [reflexivity|discriminate].
  - intros sched h. apply scenario_report. reflexivity.
Qed.

(** ** Construction of an [Assembly] *)

Lemma roles_loop_Ok (v : list string) :
  Assembly.roles_must_not_exceed_length_loop v = Ok tt
  <-> Forall (fun role => Py.len role <= 60) v.
Proof.
  induction v as [|role v IH]; simpl.
  - split; [constructor|reflexivity].
  - destruct (60 <? Py.len role) eqn:E.
    + apply Nat.ltb_lt in E. split; [discriminate|].
      intros H. inversion H; subst. lia.
    + apply Nat.ltb_ge in E. rewrite IH. split.
      * intros H. constructor; assumption.
      * intros H. inversion H; subst. assumption.
Qed.

Lemma validate_roles_Valid (v rs : list string) :
  Assembly.validate_roles v = Valid rs
  <-> rs = v /\ Forall (fun role => Py.len role <= 60) v.
Proof.
  unfold Assembly.validate_roles, after_validator, Assembly.roles_must_not_exceed_length.
  rewrite <- roles_loop_Ok.
  destruct (Assembly.roles_must_not_exceed_length_loop v) as [[]|[]]; simpl;
    split; try discriminate; try (intros [_ H]; discriminate H).
  - intros [= <-]. auto.
  - intros [-> _]. reflexivity.
Qed.

(** What a constructed [Assembly] tells about the validation of its
    fields. *)
Lemma Assembly_init_Valid (HttpUrl : string -> bool) (args : Assembly.args)
    (a : Assembly.t) :
  Assembly.init HttpUrl args = Ok a
  <-> required (B := string) "id" (Assembly.arg_id args) Valid = Valid (Assembly.id a)
      /\ required "judges" (Assembly.arg_judges args) (Assembly.validate_judges HttpUrl)
         = Valid (Assembly.judges a)
      /\ required "roles" (Assembly.arg_roles args) Assembly.validate_roles
         = Valid (Assembly.roles a).
Proof.
  unfold Assembly.init. split.
  - destruct (both _ _) as [[i [js rs]]|errs|e] eqn:E; try discriminate.
    intros [= <-]. simpl.
    apply both_Valid in E as [Ei E]. apply both_Valid in E as [Ej Er]. auto.
  - intros (Ei & Ej & Er). rewrite Ei, Ej, Er. destruct a; reflexivity.
Qed.

(** C9, as stated: a constructed Assembly has a non-empty id.  The
    constructor accepts the empty id. *)
Lemma C9_empty_id_counterexample :
  Assembly.init (fun _ => true) (Assembly.mk_args (Some "") (Some []) (Some ["qa"]))
  = Ok (Assembly.mk "" [] ["qa"])
  /\ Assembly.id (Assembly.mk "" [] ["qa"]) = "".
Proof. split; reflexivity. Qed.

(** C9, amended: every Assembly that constructs successfully has the id
    that was passed, which must be present and can be empty, and each of
    its role strings has at most 60 characters; construction fails for
    every input without an id or with a role of more than 60
    characters. *)
Theorem C9_assembly_bounds (HttpUrl : string -> bool) (args : Assembly.args)
    (a : Assembly.t) :
  Assembly.init HttpUrl args = Ok a ->
  Assembly.arg_id args = Some (Assembly.id a)
  /\ Assembly.arg_roles args = Some (Assembly.roles a)
  /\ Forall (fun role => Py.len role <= 60) (Assembly.roles a).
Proof.
  intros H. apply Assembly_init_Valid in H as (Ei & _ & Er).
  apply required_Valid in Ei as (vi & Hi & [= ->]).
  apply required_Valid in Er as (vr & Hr & Hroles).
  apply validate_roles_Valid in Hroles as [-> Hroles].
  auto.
Qed.

Lemma C9_assembly_bounds_witness :
  Assembly.init (fun _ => true) (Assembly.mk_args (Some "p0") (Some []) (Some ["qa"; "ops"]))
  = Ok (Assembly.mk "p0" [] ["qa"; "ops"])
  /\ Assembly.arg_id (Assembly.mk_args (Some "p0") (Some []) (Some ["qa"; "ops"]))
     = Some (Assembly.id (Assembly.mk "p0" [] ["qa"; "ops"]))
  /\ Assembly.arg_roles (Assembly.mk_args (Some "p0") (Some []) (Some ["qa"; "ops"]))
     = Some (Assembly.roles (Assembly.mk "p0" [] ["qa"; "ops"]))
  /\ Forall (fun role => Py.len role <= 60)
            (Assembly.roles (Assembly.mk "p0" [] ["qa"; "ops"])).
Proof.
  assert (H : Assembly.init (fun _ => true)
                (Assembly.mk_args (Some "p0") (Some []) (Some ["qa"; "ops"]))
              = Ok (Assembly.mk "p0" [] ["qa"; "ops"])) by reflexivity.
  split; [exact H|].
  exact (C9_assembly_bounds _ _ _ H).
Defined.

(** An input with a role of more than 60 characters, or without an id, is
    rejected. *)
Lemma Assembly_init_rejects (HttpUrl : string -> bool) (args : Assembly.args) :
  (Assembly.arg_id args = None
   \/ exists rs role, Assembly.arg_roles args = Some rs /\ In role rs /\ 60 < Py.len role) ->
  exists e, Assembly.init HttpUrl args = Err e.
Proof.
  intros H. destruct (Assembly.init HttpUrl args) as [a|e] eqn:E; [exfalso|eauto].
  apply Assembly_init_Valid in E as (Ei & _ & Er).
  apply required_Valid in Ei as (vi & Hi & _).
  apply required_Valid in Er as (vr & Hr & Hroles).
  apply validate_roles_Valid in Hroles as [_ Hall].
  destruct H as [H | (rs & role & Hrs & Hin & Hlen)]; [congruence|].
  rewrite Hrs in Hr. injection Hr as <-.
  rewrite Forall_forall in Hall. apply list_elem_of_In, Hall in Hin. lia.
Qed.

(** ** The collected verdicts over time *)

Lemma grows_refl (h : Heap) : grows h h.
Proof. intros sj o Ho. exists o, []. rewrite app_nil_r. auto. Qed.

Lemma grows_trans (h1 h2 h3 : Heap) : grows h1 h2 -> grows h2 h3 -> grows h1 h3.
Proof.
  intros H12 H23 sj o Ho.
  destruct (H12 sj o Ho) as (o2 & vs & Ho2 & E2).
  destruct (H23 sj o2 Ho2) as (o3 & ws & Ho3 & E3).
  exists o3, (vs ++ ws). split; [exact Ho3|]. rewrite E3, E2, app_assoc. reflexivity.
Qed.

Lemma lookup_alter_extend (f : SuperJudge.t -> SuperJudge.t) (ss : list SuperJudge.t)
    (m sj : loc) (o : SuperJudge.t) :
  (forall x, exists vs, SuperJudge._evaluations (f x) = SuperJudge._evaluations x ++ vs) ->
  ss !! sj = Some o ->
  exists o' vs, alter f m ss !! sj = Some o'
                /\ SuperJudge._evaluations o' = SuperJudge._evaluations o ++ vs.
Proof.
  intros Hf Ho. destruct (decide (m = sj)) as [->|Hne].
  - rewrite list_lookup_alter_eq, Ho. simpl.
    destruct (Hf o) as [vs Hvs]. eauto.
  - rewrite list_lookup_alter_ne by exact Hne. exists o, []. rewrite app_nil_r. auto.
Qed.

Lemma register_judge_grows (self judge : loc) (h : Heap) :
  grows h (SuperJudge_register_judge self judge h).
Proof.
  intros sj o Ho. simpl. apply lookup_alter_extend; [|exact Ho].
  intros x. exists []. simpl. rewrite app_nil_r. reflexivity.
Qed.

Lemma notify_grows (self sender : loc) (event : string) (data : gmap string string)
    (h : Heap) :
  grows h (SuperJudge_notify self sender event data h).
Proof.
  intros sj o Ho. simpl. apply lookup_alter_extend; [|exact Ho].
  intros x. destruct (notify_extends sender event data x) as [vs ->].
  exists vs. reflexivity.
Qed.

(** An evaluation leaves every coordinator with what it had, followed by
    verdicts. *)
Lemma evaluate_appends (j : loc) (prompt : string) (h : Heap) (sj : loc)
    (o : SuperJudge.t) :
  super_judges h !! sj = Some o ->
  exists vs,
    super_judges (fst (ConcreteJudge_evaluate j prompt h)) !! sj = Some (extend vs o)
    /\ Forall is_verdict vs.
Proof.
  intros Ho.
  assert (Hsame : exists vs, super_judges h !! sj = Some (extend vs o) /\ Forall is_verdict vs).
  { exists []. rewrite extend_nil. split; [exact Ho|constructor]. }
  unfold ConcreteJudge_evaluate.
  destruct (concrete_judges h !! j) as [cj|]; [|exact Hsame].
  destruct (ConcreteJudge.answer cj (clock h) prompt) as [res|e]; [|exact Hsame].
  destruct (ConcreteJudge.mediator cj) as [m|]; [|exact Hsame].
  simpl. destruct (decide (m = sj)) as [->|Hne].
  - rewrite list_lookup_alter_eq, Ho. simpl.
    exists [ConcreteJudge.data cj res]. split; [reflexivity|].
    constructor; [exists cj, res; reflexivity|constructor].
  - rewrite list_lookup_alter_ne by exact Hne. exact Hsame.
Qed.

Lemma run_tasks_appends (order : list loc) (prompt : string) :
  forall (h : Heap) (sj : loc) (o : SuperJudge.t),
    super_judges h !! sj = Some o ->
    exists vs,
      super_judges (fst (run_tasks order prompt h)) !! sj = Some (extend vs o)
      /\ Forall is_verdict vs.
Proof.
  induction order as [|j order IH]; intros h sj o Ho; simpl.
  - exists []. rewrite extend_nil. split; [exact Ho|constructor].
  - destruct (evaluate_appends j prompt h sj o Ho) as (vs & Hvs & Hall).
    destruct (ConcreteJudge_evaluate j prompt h) as [h1 [[]|e]]; simpl in *.
    + destruct (IH h1 sj _ Hvs) as (ws & Hws & Hall').
      exists (vs ++ ws). rewrite <- extend_extend. split; [exact Hws|].
      apply Forall_app. auto.
    + eauto.
Qed.

Lemma SuperJudge_evaluate_heap (sched : list nat) (self : loc) (prompt : string) (h : Heap) :
  fst (SuperJudge_evaluate sched self prompt h)
  = fst (gather sched
           match super_judges h !! self with
           | Some o => SuperJudge._judges o
           | None => []
           end prompt h).
Proof.
  unfold SuperJudge_evaluate, JudgeEvaluationPlan_run_plan.
  destruct (gather sched _ prompt h) as [h' [[]|e]]; simpl; [|reflexivity].
  destruct (SuperJudge_final_verdict self h'); reflexivity.
Qed.

Lemma SuperJudge_evaluate_appends (sched : list nat) (self : loc) (prompt : string)
    (h : Heap) (sj : loc) (o : SuperJudge.t) :
  super_judges h !! sj = Some o ->
  exists vs,
    super_judges (fst (SuperJudge_evaluate sched self prompt h)) !! sj = Some (extend vs o)
    /\ Forall is_verdict vs.
Proof.
  intros Ho. rewrite SuperJudge_evaluate_heap. unfold gather.
  apply run_tasks_appends, Ho.
Qed.

Lemma perform_grows (op : operation) (h : Heap) : grows h (perform op h).
Proof.
  destruct op as [self judge|self sender event data|self|sched self prompt|judge prompt];
    simpl.
  - apply register_judge_grows.
  - apply notify_grows.
  - apply grows_refl.
  - intros sj o Ho.
    destruct (SuperJudge_evaluate_appends sched self prompt h sj o Ho) as (vs & Hvs & _).
    exists (extend vs o), vs. auto.
  - intros sj o Ho.
    destruct (evaluate_appends judge prompt h sj o Ho) as (vs & Hvs & _).
    exists (extend vs o), vs. auto.
Qed.

Lemma perform_all_grows (ops : list operation) : forall h, grows h (perform_all ops h).
Proof.
  induction ops as [|op ops IH]; intros h; simpl.
  - apply grows_refl.
  - eapply grows_trans; [apply perform_grows|apply IH].
Qed.

Lemma SuperJudge_evaluate_Ok (sched : list nat) (self : loc) (prompt : string) (h : Heap)
    (o : SuperJudge.t) :
  super_judges h !! self = Some o ->
  is_Ok (snd (SuperJudge_evaluate sched self prompt h)) = true ->
  exists h',
    run_tasks (completion_order (length (SuperJudge._judges o)) sched (SuperJudge._judges o))
              prompt h = (h', Ok tt)
    /\ fst (SuperJudge_evaluate sched self prompt h) = h'.
Proof.
  intros Ho. unfold SuperJudge_evaluate, JudgeEvaluationPlan_run_plan, gather.
  rewrite Ho.
  destruct (run_tasks _ prompt h) as [h' [[]|e]]; simpl; [|discriminate].
  intros _. exists h'. split; [reflexivity|].
  destruct (SuperJudge_final_verdict self h'); reflexivity.
Qed.

(** C10: the verdicts that a coordinator has collected stay, in their
    order, under every sequence of calls to [register_judge], [notify],
    [final_verdict] and [evaluate]; and after one more [evaluate] on the
    same coordinator the report shows the lines it showed before,
    followed by the lines of the new verdicts, one for each registered
    judge when that run succeeds. *)
Theorem C10_collected_verdicts_only_grow (ops : list operation) (sched : list nat)
    (self : loc) (prompt : string) (h : Heap) (o : SuperJudge.t) (lines : list string) :
  super_judges h !! self = Some o ->
  Forall2 renders (SuperJudge._evaluations o) lines ->
  (exists o1,
      super_judges (perform_all ops h) !! self = Some o1
      /\ SuperJudge._evaluations o `prefix_of` SuperJudge._evaluations o1)
  /\ exists vs new_lines,
       super_judges (fst (SuperJudge_evaluate sched self prompt h)) !! self
         = Some (extend vs o)
       /\ Forall2 renders vs new_lines
       /\ SuperJudge.final_verdict (extend vs o)
          = Ok match lines ++ new_lines with
               | [] => "[No evaluations received]"
               | _ :: _ => Py.join Py.NL (lines ++ new_lines)
               end
       /\ (is_Ok (snd (SuperJudge_evaluate sched self prompt h)) = true ->
           (forall j, In j (SuperJudge._judges o) ->
              exists cj, concrete_judges h !! j = Some cj
                         /\ ConcreteJudge.mediator cj = Some self) ->
           length new_lines = length (SuperJudge._judges o)).
Proof.
  intros Ho Hlines. split.
  - destruct (perform_all_grows ops h self o Ho) as (o1 & vs & Ho1 & E).
    exists o1. split; [exact Ho1|]. exists vs. exact E.
  - destruct (SuperJudge_evaluate_appends sched self prompt h self o Ho)
      as (vs & Hvs & Hall).
    destruct (verdicts_render vs Hall) as (new_lines & Hnew).
    exists vs, new_lines. split; [exact Hvs|]. split; [exact Hnew|]. split.
    + apply final_verdict_lines. simpl. apply Forall2_app; assumption.
    + intros Hok Hreg.
      destruct (SuperJudge_evaluate_Ok sched self prompt h o Ho Hok) as (h' & Hrun & Hh').
      rewrite Hh' in Hvs.
      set (order := completion_order _ sched _) in Hrun.
      assert (Hperm : order ≡ₚ SuperJudge._judges o).
      { apply completion_order_Permutation. reflexivity. }
      apply (run_tasks_registered order self) in Hrun as (_ & ws & Hss & _ & Hws).
      * rewrite Hss, list_lookup_alter_eq, Ho in Hvs. simpl in Hvs.
        injection Hvs as Hvs. apply app_inv_head in Hvs. subst ws.
        rewrite <- (Forall2_length _ _ _ Hnew), <- (Forall2_length _ _ _ (Hws eq_refl)).
        rewrite Hperm. reflexivity.
      * intros j Hj. apply Hreg, list_elem_of_In. rewrite <- Hperm.
        apply list_elem_of_In, Hj.
Qed.

Lemma C10_collected_verdicts_only_grow_witness :
  let k := replying_kernel "Looks fine." in
  let first := JudgeOrchestrator_run_evaluation k [1]
                 (Assembly.mk "p1" [judge_a; judge_b] ["qa"]) "Evaluate: hello" empty_heap in
  let h := fst first in
  let o := SuperJudge.mk k "SuperJudge_p1" [0; 1]
             [ConcreteJudge.data (registered k 0 judge_b) "Looks fine.";
              ConcreteJudge.data (registered k 0 judge_a) "Looks fine."] None in
  let lines := ["Judge2 => Looks fine."; "Judge1 => Looks fine."] in
  let ops := [FinalVerdict 0; Notify 0 1 "progress" ∅; Register 0 1;
              Evaluate [0] 0 "Evaluate: again"] in
  super_judges h !! 0 = Some o
  /\ Forall2 renders (SuperJudge._evaluations o) lines
  /\ (exists o1,
         super_judges (perform_all ops h) !! 0 = Some o1
         /\ SuperJudge._evaluations o `prefix_of` SuperJudge._evaluations o1)
  /\ exists vs new_lines,
       super_judges (fst (SuperJudge_evaluate [0] 0 "Evaluate: again" h)) !! 0
         = Some (extend vs o)
       /\ Forall2 renders vs new_lines
       /\ SuperJudge.final_verdict (extend vs o)
          = Ok match lines ++ new_lines with
               | [] => "[No evaluations received]"
               | _ :: _ => Py.join Py.NL (lines ++ new_lines)
               end
       /\ (is_Ok (snd (SuperJudge_evaluate [0] 0 "Evaluate: again" h)) = true ->
           (forall j, In j (SuperJudge._judges o) ->
              exists cj, concrete_judges h !! j = Some cj
                         /\ ConcreteJudge.mediator cj = Some 0) ->
           length new_lines = length (SuperJudge._judges o)).
Proof.
  intros k first h o lines ops.
  assert (Ho : super_judges h !! 0 = Some o) by reflexivity.
  assert (Hlines : Forall2 renders (SuperJudge._evaluations o) lines).
  { apply Forall2_cons. split; [apply data_renders|].
    apply Forall2_cons. split; [apply data_renders|]. apply Forall2_nil_2. }
  split; [exact Ho|]. split; [exact Hlines|].
  exact (C10_collected_verdicts_only_grow ops [0] 0 "Evaluate: again" h o lines Ho Hlines).
Defined.

(** ** The decoder's fuel *)

Section DecoderFuel.

Import Json.

Lemma skip_ws_length (l : list ascii) : length (skip_ws l) <= length l.
Proof.
induction l as [|c l IH]; simpl; [lia|].
destruct (is_ws c); simpl; lia.
Qed.

Lemma py_scanstring_within (n : nat) :
forall l, length l <= n -> within (length l) (py_scanstring l).
Proof.
induction n as [|n IH]; intros l Hl.
- destruct l; [simpl; exact I|simpl in Hl; lia].
- destruct l as [|c l]; simpl; [exact I|].
  simpl in Hl.
  repeat match goal with
  | |- context [py_scanstring ?x] =>
      let H := fresh "H" in
      assert (H : within (length x) (py_scanstring x))
        by (apply IH; simpl in *; lia);
      destruct (py_scanstring x); simpl in H |- *
  | |- context [if ?b then _ else _] => destruct b
  | |- context [match ?x with _ => _ end] => destruct x
  end; simpl in *; try exact I; try lia.
Qed.

Lemma digits_length (l : list ascii) : length (snd (digits l)) <= length l.
Proof.
induction l as [|c l IH]; simpl; [lia|].
destruct (is_digit c); [|simpl; lia].
destruct (digits l). simpl in *. lia.
Qed.

Lemma literal_length (lit l r : list ascii) :
literal lit l = Some r -> length r + length lit = length l.
Proof.
revert l. induction lit as [|a lit IH]; intros l; simpl.
- intros [= ->]. lia.
- destruct l as [|c l]; [discriminate|].
  destruct (Ascii.eqb a c); [|discriminate].
  intros H. apply IH in H. simpl. lia.
Qed.

Lemma keyword_length (lit : string) (v w : json) (l r : list ascii) :
lit <> EmptyString -> keyword lit v l = Some (w, r) -> length r < length l.
Proof.
intros Hne. unfold keyword.
destruct (literal (list_ascii_of_string lit) l) eqn:E; [|discriminate].
intros [= _ <-]. apply literal_length in E.
destruct lit; [congruence|]. simpl in E. lia.
Qed.

Lemma match_integer_length (l i r : list ascii) :
match_integer l = Some (i, r) -> length r < length l.
Proof.
unfold match_integer.
destruct l as [|c l]; [discriminate|].
destruct (chr 45 c).
- destruct l as [|d l]; [discriminate|].
  destruct (chr 48 d); [intros [= _ <-]; simpl; lia|].
  destruct (is_digit d); [|discriminate].
  pose proof (digits_length l). destruct (digits l). intros [= _ <-]. simpl in *. lia.
- destruct (chr 48 c); [intros [= _ <-]; simpl; lia|].
  destruct (is_digit c); [|discriminate].
  pose proof (digits_length l). destruct (digits l). intros [= _ <-]. simpl in *. lia.
Qed.

Lemma match_frac_length (l : list ascii) : length (snd (match_frac l)) <= length l.
Proof.
unfold match_frac. destruct l as [|c l]; [simpl; lia|].
destruct (chr 46 c); [|simpl; lia].
pose proof (digits_length l). destruct (digits l) as [[|d ds] r]; simpl in *; lia.
Qed.

Lemma match_exp_length (l : list ascii) : length (snd (match_exp l)) <= length l.
Proof.
unfold match_exp. destruct l as [|c l]; [simpl; lia|].
destruct (chr 101 c || chr 69 c); [|simpl; lia].
destruct l as [|s l].
- simpl. lia.
- destruct (chr 45 s || chr 43 s).
  + pose proof (digits_length l). destruct (digits l) as [[|d ds] r]; simpl in *; lia.
  + pose proof (digits_length (s :: l)).
    destruct (digits (s :: l)) as [[|d ds] r]; simpl in *; lia.
Qed.

Lemma match_number_length (l r : list ascii) (lx : string) :
match_number l = Some (lx, r) -> length r < length l.
Proof.
unfold match_number.
destruct (match_integer l) as [[i r1]|] eqn:Ei; [|discriminate].
apply match_integer_length in Ei.
pose proof (match_frac_length r1). destruct (match_frac r1) as [f r2].
pose proof (match_exp_length r2). destruct (match_exp r2) as [e r3].
intros [= _ <-]. simpl in *. lia.
Qed.

Lemma scan_scalar_within (l : list ascii) : within (length l) (scan_scalar l).
Proof.
unfold scan_scalar.
repeat match goal with
| |- context [keyword ?lit ?v l] =>
    let E := fresh "E" in
    destruct (keyword lit v l) as [[? ?]|] eqn:E;
    [apply keyword_length in E; [exact E|discriminate]|]
end.
destruct (match_number l) as [[lx r]|] eqn:En.
- apply match_number_length in En. exact En.
- repeat match goal with
  | |- context [keyword ?lit ?v l] =>
      let K := fresh "K" in
      destruct (keyword lit v l) as [[? ?]|] eqn:K;
      [apply keyword_length in K; [exact K|discriminate]|]
  end.
  exact I.
Qed.

Lemma scan_within (fuel : nat) :
(forall l, 2 * length l + 1 <= fuel -> within (length l) (scan_once fuel l))
/\ (forall l, 2 * length l + 2 <= fuel -> within (length l) (scan_members fuel l))
/\ (forall l, 2 * length l + 2 <= fuel -> within (length l) (scan_items fuel l)).
Proof.
induction fuel as [|fuel (IHo & IHm & IHi)].
- repeat split; intros l Hl; lia.
- repeat split; intros l Hl; simpl.
  + destruct l as [|c l]; [exact I|]. simpl in Hl.
    destruct (chr dquote c).
    { pose proof (py_scanstring_within _ l (le_n _)) as H.
      destruct (py_scanstring l); simpl in *; auto; lia. }
    destruct (chr 123 c).
    { pose proof (skip_ws_length l) as Hw.
      destruct (skip_ws l) as [|d r]; [exact I|]. simpl in Hw.
      destruct (chr 125 d); [simpl; lia|].
      destruct (chr dquote d); [|exact I].
      assert (H : within (length r) (scan_members fuel r)) by (apply IHm; lia).
      destruct (scan_members fuel r); simpl in *; auto; lia. }
    destruct (chr 91 c).
    { pose proof (skip_ws_length l) as Hw.
      destruct (skip_ws l) as [|d r]; [exact I|]. simpl in Hw.
      destruct (chr 93 d); [simpl; lia|].
      assert (H : within (length (d :: r)) (scan_items fuel (d :: r)))
        by (apply IHi; simpl; lia).
      destruct (scan_items fuel (d :: r)); simpl in *; auto; lia. }
    apply scan_scalar_within.
  + pose proof (py_scanstring_within _ l (le_n _)) as H.
    destruct (py_scanstring l) as [key r| |]; simpl in H; auto.
    pose proof (skip_ws_length r) as Hw.
    destruct (skip_ws r) as [|c r1]; [exact I|]. simpl in Hw.
    destruct (chr 58 c); [|exact I].
    pose proof (skip_ws_length r1) as Hw1.
    assert (H1 : within (length (skip_ws r1)) (scan_once fuel (skip_ws r1)))
      by (apply IHo; lia).
    destruct (scan_once fuel (skip_ws r1)) as [v r2| |]; simpl in H1; auto.
    pose proof (skip_ws_length r2) as Hw2.
    destruct (skip_ws r2) as [|d r3]; [exact I|]. simpl in Hw2.
    destruct (chr 125 d); [simpl; lia|].
    destruct (chr 44 d); [|exact I].
    pose proof (skip_ws_length r3) as Hw3.
    destruct (skip_ws r3) as [|q r4]; [exact I|]. simpl in Hw3.
    destruct (chr dquote q); [|exact I].
    assert (H4 : within (length r4) (scan_members fuel r4)) by (apply IHm; lia).
    destruct (scan_members fuel r4); simpl in *; auto; lia.
  + assert (H : within (length l) (scan_once fuel l)) by (apply IHo; lia).
    destruct (scan_once fuel l) as [v r| |]; simpl in H; auto.
    pose proof (skip_ws_length r) as Hw.
    destruct (skip_ws r) as [|d r1]; [exact I|]. simpl in Hw.
    destruct (chr 93 d); [simpl; lia|].
    destruct (chr 44 d); [|exact I].
    pose proof (skip_ws_length r1) as Hw1.
    assert (H1 : within (length (skip_ws r1)) (scan_items fuel (skip_ws r1)))
      by (apply IHi; lia).
    destruct (scan_items fuel (skip_ws r1)); simpl in *; auto; lia.
Qed.

(** The fuel that [loads] gives the scanner is never used up. *)
Lemma loads_fuel (s : string) :
let l := list_ascii_of_string s in
scan_once (2 * length l + 2) (skip_ws l) <> OutOfFuel.
Proof.
intros l. pose proof (skip_ws_length l) as Hw.
destruct (scan_within (2 * length l + 2)) as (H & _ & _).
specialize (H (skip_ws l)). intros E. rewrite E in H. apply H. lia.
Qed.

End DecoderFuel.

(** * Further properties of the core *)

(** ** Reports *)

(** A panel of one judge: the call returns that judge's line when its
    evaluation answers, and raises the evaluation's exception when it
    raises. *)
Theorem panel_of_one (k : SK.Kernel) (sched : list nat) (a : Assembly.t)
    (prompt : string) (h : Heap) (jd : Judge.t) :
  Assembly.judges a = [jd] ->
  snd (JudgeOrchestrator_run_evaluation k sched a prompt h)
  = match ConcreteJudge.answer (registered k (length (super_judges h)) jd)
            (clock h) prompt with
    | Ok res => Ok (Judge.name jd +:+ " => " +:+ res)
    | Err e => Err e
    end.
Proof.
  intros Hj. rewrite run_evaluation_unfold, Hj. simpl.
  assert (Hlook : concrete_judges (prepared k a h) !! length (concrete_judges h)
                  = Some (registered k (length (super_judges h)) jd)).
  { unfold prepared. simpl. rewrite Hj. apply list_lookup_middle. reflexivity. }
  rewrite (evaluate_registered _ (length (super_judges h)) _ prompt _ Hlook eq_refl).
  simpl.
  destruct (ConcreteJudge.answer _ (clock h) prompt) as [res|e]; [|reflexivity].
  unfold SuperJudge_final_verdict. simpl. rewrite alter_middle.
  rewrite list_lookup_middle by reflexivity. reflexivity.
Qed.

Lemma panel_of_one_witness :
  Assembly.judges (Assembly.mk "p1" [judge_a] ["qa"]) = [judge_a]
  /\ snd (JudgeOrchestrator_run_evaluation (replying_kernel " Looks fine. ") [3]
            (Assembly.mk "p1" [judge_a] ["qa"]) "Evaluate: hello" empty_heap)
     = match ConcreteJudge.answer
               (registered (replying_kernel " Looks fine. ")
                  (length (super_judges empty_heap)) judge_a)
               (clock empty_heap) "Evaluate: hello" with
       | Ok res => Ok (Judge.name judge_a +:+ " => " +:+ res)
       | Err e => Err e
       end.
Proof.
  split; [reflexivity|].
  exact (panel_of_one (replying_kernel " Looks fine. ") [3]
           (Assembly.mk "p1" [judge_a] ["qa"]) "Evaluate: hello" empty_heap judge_a
           eq_refl).
Defined.

(** The lines of a report are in the order in which the evaluations
    completed: line [p] is the line of the judge whose task completed
    [p]-th, with the answer that this judge got at the ticket of that
    completion. *)
Theorem report_follows_completion_order (k : SK.Kernel) (sched : list nat)
    (a : Assembly.t) (prompt : string) (h h' : Heap) (report : string) :
  JudgeOrchestrator_run_evaluation k sched a prompt h = (h', Ok report) ->
  exists lines,
    length lines = length (Assembly.judges a)
    /\ (forall p j,
          completion_order (length (Assembly.judges a)) sched
            (seq (length (concrete_judges h)) (length (Assembly.judges a))) !! p = Some j ->
          exists jd res,
            Assembly.judges a !! (j - length (concrete_judges h)) = Some jd
            /\ ConcreteJudge.answer (registered k (length (super_judges h)) jd)
                 (clock h + p) prompt = Ok res
            /\ lines !! p = Some (Judge.name jd +:+ " => " +:+ res))
    /\ report = match lines with
                | [] => "[No evaluations received]"
                | _ :: _ => Py.join Py.NL lines
                end.
Proof.
  intros Hrun.
  apply run_evaluation_exact in Hrun as (vs & lines & _ & _ & Hlines & Hall & Hrep).
  exists lines. split; [exact Hlines|]. split; [|exact Hrep].
  intros p j Hp.
  destruct (Hall p j Hp) as (jd & v & l & Hjd & _ & Hl & (res & Hans & _ & ->)).
  exists jd, res. auto.
Qed.

Lemma report_follows_completion_order_witness :
  let k := replying_kernel "Looks fine." in
  let a := Assembly.mk "p1" [judge_a; judge_b] ["qa"] in
  let run := JudgeOrchestrator_run_evaluation k [1] a "Evaluate: hello" empty_heap in
  let report := "Judge2 => Looks fine." +:+ Py.NL +:+ "Judge1 => Looks fine." in
  run = (fst run, Ok report)
  /\ exists lines,
       length lines = length (Assembly.judges a)
       /\ (forall p j,
             completion_order (length (Assembly.judges a)) [1]
               (seq (length (concrete_judges empty_heap)) (length (Assembly.judges a)))
             !! p = Some j ->
             exists jd res,
               Assembly.judges a !! (j - length (concrete_judges empty_heap)) = Some jd
               /\ ConcreteJudge.answer (registered k (length (super_judges empty_heap)) jd)
                    (clock empty_heap + p) "Evaluate: hello" = Ok res
               /\ lines !! p = Some (Judge.name jd +:+ " => " +:+ res))
       /\ report = match lines with
                   | [] => "[No evaluations received]"
                   | _ :: _ => Py.join Py.NL lines
                   end.
Proof.
  intros k a run report.
  assert (H : run = (fst run, Ok report)) by (vm_compute; reflexivity).
  split; [exact H|].
  exact (report_follows_completion_order k [1] a "Evaluate: hello" empty_heap (fst run)
           report H).
Defined.

Lemma completion_order_first {A} (pending : list A) :
  completion_order (length pending) [] pending = pending.
Proof.
  induction pending as [|x pending IH]; simpl; [reflexivity|].
  rewrite Nat.sub_diag. simpl. f_equal. exact IH.
Qed.

(** When every completion is that of the first task still pending, the
    lines of the report are in the order of the panel's judges: line [p]
    is the line of the [p]-th judge, with the answer it got at the [p]-th
    ticket of the call. *)
Theorem report_in_panel_order (k : SK.Kernel) (a : Assembly.t) (prompt : string)
    (h h' : Heap) (report : string) :
  JudgeOrchestrator_run_evaluation k [] a prompt h = (h', Ok report) ->
  exists lines,
    length lines = length (Assembly.judges a)
    /\ (forall p jd,
          Assembly.judges a !! p = Some jd ->
          exists res,
            ConcreteJudge.answer (registered k (length (super_judges h)) jd)
              (clock h + p) prompt = Ok res
            /\ lines !! p = Some (Judge.name jd +:+ " => " +:+ res))
    /\ report = match lines with
                | [] => "[No evaluations received]"
                | _ :: _ => Py.join Py.NL lines
                end.
Proof.
  intros Hrun.
  apply run_evaluation_exact in Hrun as (vs & lines & _ & _ & Hlines & Hall & Hrep).
  exists lines. split; [exact Hlines|]. split; [|exact Hrep].
  intros p jd Hjd.
  pose proof (completion_order_first
                (seq (length (concrete_judges h)) (length (Assembly.judges a)))) as E.
  rewrite length_seq in E. rewrite E in Hall. clear E.
  destruct (Hall p (length (concrete_judges h) + p)) as (jd' & v & l & Hjd' & _ & Hl & Hs).
  { apply lookup_seq_lt. apply lookup_lt_Some in Hjd. exact Hjd. }
  replace (length (concrete_judges h) + p - length (concrete_judges h)) with p in Hjd'
    by lia.
  rewrite Hjd in Hjd'. injection Hjd' as <-.
  destruct Hs as (res & Hans & _ & ->). exists res. auto.
Qed.

Lemma report_in_panel_order_witness :
  let k := replying_kernel "Looks fine." in
  let a := Assembly.mk "p1" [judge_a; judge_b] ["qa"] in
  let run := JudgeOrchestrator_run_evaluation k [] a "Evaluate: hello" empty_heap in
  let report := "Judge1 => Looks fine." +:+ Py.NL +:+ "Judge2 => Looks fine." in
  run = (fst run, Ok report)
  /\ exists lines,
       length lines = length (Assembly.judges a)
       /\ (forall p jd,
             Assembly.judges a !! p = Some jd ->
             exists res,
               ConcreteJudge.answer (registered k (length (super_judges empty_heap)) jd)
                 (clock empty_heap + p) "Evaluate: hello" = Ok res
               /\ lines !! p = Some (Judge.name jd +:+ " => " +:+ res))
       /\ report = match lines with
                   | [] => "[No evaluations received]"
                   | _ :: _ => Py.join Py.NL lines
                   end.
Proof.
  intros k a run report.
  assert (H : run = (fst run, Ok report)) by (vm_compute; reflexivity).
  split; [exact H|].
  exact (report_in_panel_order k a "Evaluate: hello" empty_heap (fst run) report H).
Defined.

(** ** What a call leaves in the heap *)

Lemma run_tasks_concrete_judges (order : list loc) (prompt : string) :
  forall h, concrete_judges (fst (run_tasks order prompt h)) = concrete_judges h.
Proof.
  induction order as [|j order IH]; intros h; simpl; [reflexivity|].
  pose proof (evaluate_concrete_judges j prompt h) as E.
  destruct (ConcreteJudge_evaluate j prompt h) as [h1 [[]|e]]; simpl in *.
  - rewrite IH. exact E.
  - exact E.
Qed.

Lemma run_evaluation_heap (k : SK.Kernel) (sched : list nat) (a : Assembly.t)
    (prompt : string) (h : Heap) :
  fst (JudgeOrchestrator_run_evaluation k sched a prompt h)
  = fst (run_tasks
           (completion_order (length (Assembly.judges a)) sched
              (seq (length (concrete_judges h)) (length (Assembly.judges a))))
           prompt (prepared k a h)).
Proof.
  rewrite run_evaluation_unfold.
  destruct (run_tasks _ prompt (prepared k a h)) as [h4 [[]|e]]; simpl; [|reflexivity].
  destruct (SuperJudge_final_verdict (length (super_judges h)) h4); reflexivity.
Qed.

(** A call builds its own coordinator and sub-judges and touches nothing
    else: every object that was in the heap is there unchanged afterwards,
    whether the call returns a report or raises. *)
Theorem run_evaluation_keeps_existing_objects (k : SK.Kernel) (sched : list nat)
    (a : Assembly.t) (prompt : string) (h : Heap) :
  let h' := fst (JudgeOrchestrator_run_evaluation k sched a prompt h) in
  concrete_judges h'
  = concrete_judges h
    ++ map (registered k (length (super_judges h))) (Assembly.judges a)
  /\ exists o,
       super_judges h' = super_judges h ++ [o]
       /\ SuperJudge._judges o
          = seq (length (concrete_judges h)) (length (Assembly.judges a)).
Proof.
  intros h'. subst h'. rewrite run_evaluation_heap. split.
  - rewrite run_tasks_concrete_judges. reflexivity.
  - destruct (run_tasks _ prompt (prepared k a h)) as [h4 r] eqn:Hrun.
    apply run_evaluation_tasks in Hrun as (vs & Hss & _).
    simpl. rewrite Hss. eexists. split; reflexivity.
Qed.

(** ** Success of a call *)

Lemma run_tasks_succeeds (order : list loc) (prompt : string) :
  forall h,
    (forall j, In j order ->
       exists o, concrete_judges h !! j = Some o
                 /\ forall t, is_Ok (ConcreteJudge.answer o t prompt) = true) ->
    snd (run_tasks order prompt h) = Ok tt.
Proof.
  induction order as [|j order IH]; intros h Hall; simpl; [reflexivity|].
  destruct (Hall j (or_introl eq_refl)) as (o & Ho & Hans).
  pose proof (evaluate_concrete_judges j prompt h) as Hcs.
  destruct (ConcreteJudge_evaluate j prompt h) as [h1 [[]|e]] eqn:E; simpl in Hcs.
  - apply IH. intros j' Hj'. rewrite Hcs. apply Hall. right. exact Hj'.
  - exfalso. unfold ConcreteJudge_evaluate in E. rewrite Ho in E.
    specialize (Hans (clock h)).
    destruct (ConcreteJudge.answer o (clock h) prompt); [|discriminate Hans].
    destruct (ConcreteJudge.mediator o); discriminate E.
Qed.

Lemma run_tasks_of_answering_panel (k : SK.Kernel) (sched : list nat) (a : Assembly.t)
    (prompt : string) (h : Heap) :
  (forall jd t, In jd (Assembly.judges a) ->
     is_Ok (ConcreteJudge.answer (registered k (length (super_judges h)) jd) t prompt)
     = true) ->
  snd (run_tasks
         (completion_order (length (Assembly.judges a)) sched
            (seq (length (concrete_judges h)) (length (Assembly.judges a))))
         prompt (prepared k a h)) = Ok tt.
Proof.
  intros Hall. apply run_tasks_succeeds. intros j Hj.
  assert (Hseq : In j (seq (length (concrete_judges h)) (length (Assembly.judges a)))).
  { apply list_elem_of_In.
    rewrite <- (completion_order_Permutation _ sched _ (length_seq _ _)).
    apply list_elem_of_In, Hj. }
  destruct (prepared_lookup k a h j Hseq) as (jd & Hjd & Hlook).
  exists (registered k (length (super_judges h)) jd). split; [exact Hlook|].
  intros t. apply Hall. apply list_elem_of_In, list_elem_of_lookup. eauto.
Qed.

(** The other half of all-or-nothing: when the evaluation of every judge
    of the panel answers, the call returns a report, in whatever order
    the evaluations complete. *)
Theorem run_evaluation_succeeds (k : SK.Kernel) (sched : list nat) (a : Assembly.t)
    (prompt : string) (h : Heap) :
  (forall jd t, In jd (Assembly.judges a) ->
     is_Ok (ConcreteJudge.answer (registered k (length (super_judges h)) jd) t prompt)
     = true) ->
  exists report, snd (JudgeOrchestrator_run_evaluation k sched a prompt h) = Ok report.
Proof.
  intros Hall. rewrite run_evaluation_unfold.
  set (order := completion_order _ sched _).
  assert (Hok : snd (run_tasks order prompt (prepared k a h)) = Ok tt)
    by exact (run_tasks_of_answering_panel k sched a prompt h Hall).
  destruct (run_tasks order prompt (prepared k a h)) as [h4 r] eqn:Hrun.
  simpl in Hok. subst r.
  apply run_evaluation_tasks in Hrun as (vs & Hss & Hvs & _).
  destruct (verdicts_render vs Hvs) as (lines & Hlines).
  unfold SuperJudge_final_verdict. rewrite Hss.
  rewrite list_lookup_middle by reflexivity.
  rewrite (final_verdict_lines
             (extend vs (coordinator k a (length (concrete_judges h)))) lines Hlines).
  eexists. reflexivity.
Qed.

Lemma run_evaluation_succeeds_witness :
  (forall jd t, In jd [judge_a; judge_b] ->
     is_Ok (ConcreteJudge.answer
              (registered (replying_kernel "Looks fine.")
                 (length (super_judges empty_heap)) jd) t "Evaluate: hello") = true)
  /\ exists report,
       snd (JudgeOrchestrator_run_evaluation (replying_kernel "Looks fine.") [5; 3]
              (Assembly.mk "p1" [judge_a; judge_b] ["qa"]) "Evaluate: hello" empty_heap)
       = Ok report.
Proof.
  assert (H : forall jd t, In jd [judge_a; judge_b] ->
            is_Ok (ConcreteJudge.answer
                     (registered (replying_kernel "Looks fine.")
                        (length (super_judges empty_heap)) jd) t "Evaluate: hello")
            = true).
  { intros jd t [<-|[<-|[]]]; reflexivity. }
  split; [exact H|].
  exact (run_evaluation_succeeds (replying_kernel "Looks fine.") [5; 3]
           (Assembly.mk "p1" [judge_a; judge_b] ["qa"]) "Evaluate: hello" empty_heap H).
Defined.

(** ** The reach of an evaluation *)

Lemma evaluate_frame (j : loc) (prompt : string) (h : Heap) (cj : ConcreteJudge.t)
    (sj : loc) :
  concrete_judges h !! j = Some cj ->
  ConcreteJudge.mediator cj <> Some sj ->
  super_judges (fst (ConcreteJudge_evaluate j prompt h)) !! sj = super_judges h !! sj.
Proof.
  intros Hcj Hm. unfold ConcreteJudge_evaluate. rewrite Hcj.
  destruct (ConcreteJudge.answer cj (clock h) prompt); [|reflexivity].
  destruct (ConcreteJudge.mediator cj) as [m|]; [|reflexivity].
  simpl. apply list_lookup_alter_ne. congruence.
Qed.

(** An evaluation reaches its judge's mediator only: it changes no
    sub-judge, and every coordinator other than the mediator keeps its
    state; a judge without mediator changes no coordinator at all. *)
Theorem evaluate_reaches_only_its_mediator (j : loc) (prompt : string) (h : Heap)
    (cj : ConcreteJudge.t) :
  concrete_judges h !! j = Some cj ->
  let h' := fst (ConcreteJudge_evaluate j prompt h) in
  concrete_judges h' = concrete_judges h
  /\ (forall sj, ConcreteJudge.mediator cj <> Some sj ->
        super_judges h' !! sj = super_judges h !! sj)
  /\ (ConcreteJudge.mediator cj = None -> super_judges h' = super_judges h).
Proof.
  intros Hcj h'. subst h'. split; [apply evaluate_concrete_judges|]. split.
  - intros sj Hm. exact (evaluate_frame j prompt h cj sj Hcj Hm).
  - intros Hnone. unfold ConcreteJudge_evaluate. rewrite Hcj.
    destruct (ConcreteJudge.answer cj (clock h) prompt); [|reflexivity].
    rewrite Hnone. reflexivity.
Qed.

Lemma evaluate_reaches_only_its_mediator_witness :
  let k := replying_kernel "Looks fine." in
  let cj := ConcreteJudge.__init__ judge_a k in
  let h := mkHeap [cj] [SuperJudge.__init__ k "SuperJudge"] 0 in
  concrete_judges h !! 0 = Some cj
  /\ let h' := fst (ConcreteJudge_evaluate 0 "Evaluate: hello" h) in
     concrete_judges h' = concrete_judges h
     /\ (forall sj, ConcreteJudge.mediator cj <> Some sj ->
           super_judges h' !! sj = super_judges h !! sj)
     /\ (ConcreteJudge.mediator cj = None -> super_judges h' = super_judges h).
Proof.
  intros k cj h. split; [reflexivity|].
  exact (evaluate_reaches_only_its_mediator 0 "Evaluate: hello" h cj eq_refl).
Defined.

Lemma run_tasks_frame (order : list loc) (prompt : string) (self : loc) :
  forall h,
    (forall j, In j order ->
       exists cj, concrete_judges h !! j = Some cj
                  /\ ConcreteJudge.mediator cj <> Some self) ->
    super_judges (fst (run_tasks order prompt h)) !! self = super_judges h !! self.
Proof.
  induction order as [|j order IH]; intros h Hall; simpl; [reflexivity|].
  destruct (Hall j (or_introl eq_refl)) as (cj & Hcj & Hm).
  pose proof (evaluate_frame j prompt h cj self Hcj Hm) as Hf.
  pose proof (evaluate_concrete_judges j prompt h) as Hcs.
  destruct (ConcreteJudge_evaluate j prompt h) as [h1 [[]|e]]; simpl in *.
  - rewrite IH; [exact Hf|].
    intros j' Hj'. rewrite Hcs. apply Hall. right. exact Hj'.
  - exact Hf.
Qed.

(** A sub-judge reports to the coordinator that registered it last: when
    the sub-judges of a coordinator are all bound to other mediators, its
    [evaluate] runs them and collects nothing. *)
Theorem evaluate_collects_nothing_from_rebound_judges (sched : list nat) (self : loc)
    (prompt : string) (h : Heap) (o : SuperJudge.t) :
  super_judges h !! self = Some o ->
  (forall j, In j (SuperJudge._judges o) ->
     exists cj, concrete_judges h !! j = Some cj
                /\ ConcreteJudge.mediator cj <> Some self) ->
  super_judges (fst (SuperJudge_evaluate sched self prompt h)) !! self = Some o.
Proof.
  intros Ho Hall. rewrite SuperJudge_evaluate_heap, Ho. unfold gather.
  rewrite run_tasks_frame; [exact Ho|].
  intros j Hj. apply Hall, list_elem_of_In.
  rewrite <- (completion_order_Permutation _ sched (SuperJudge._judges o) eq_refl).
  apply list_elem_of_In, Hj.
Qed.

Lemma evaluate_collects_nothing_from_rebound_judges_witness :
  let k := replying_kernel "Looks fine." in
  let h0 := mkHeap [ConcreteJudge.__init__ judge_a k]
                   [SuperJudge.__init__ k "A"; SuperJudge.__init__ k "B"] 0 in
  let h := SuperJudge_register_judge 1 0 (SuperJudge_register_judge 0 0 h0) in
  let o := SuperJudge.mk k "A" [0] [] None in
  super_judges h !! 0 = Some o
  /\ (forall j, In j (SuperJudge._judges o) ->
        exists cj, concrete_judges h !! j = Some cj
                   /\ ConcreteJudge.mediator cj <> Some 0)
  /\ super_judges (fst (SuperJudge_evaluate [] 0 "Evaluate: hello" h)) !! 0 = Some o.
Proof.
  intros k h0 h o.
  assert (Ho : super_judges h !! 0 = Some o) by reflexivity.
  assert (Hall : forall j, In j (SuperJudge._judges o) ->
            exists cj, concrete_judges h !! j = Some cj
                       /\ ConcreteJudge.mediator cj <> Some 0).
  { intros j [<-|[]]. eexists. split; [reflexivity|]. simpl. discriminate. }
  split; [exact Ho|]. split; [exact Hall|].
  exact (evaluate_collects_nothing_from_rebound_judges [] 0 "Evaluate: hello" h o Ho Hall).
Defined.

(** ** Notifications and the report *)

Lemma append_assoc (a b c : string) : (a +:+ b) +:+ c = a +:+ (b +:+ c).
Proof.
  induction a as [|x a IH]; [reflexivity|].
  change ((String x a +:+ b) +:+ c) with (String x ((a +:+ b) +:+ c)).
  rewrite IH. reflexivity.
Qed.

Lemma join_snoc (sep : string) (ls : list string) (l : string) :
  ls <> [] -> Py.join sep (ls ++ [l]) = Py.join sep ls +:+ sep +:+ l.
Proof.
  induction ls as [|x ls IH]; intros Hne; [congruence|].
  destruct ls as [|y ls]; [reflexivity|].
  change (Py.join sep ((x :: y :: ls) ++ [l]))
    with (x +:+ sep +:+ Py.join sep ((y :: ls) ++ [l])).
  rewrite IH by discriminate.
  change (Py.join sep (x :: y :: ls)) with (x +:+ sep +:+ Py.join sep (y :: ls)).
  rewrite !append_assoc. reflexivity.
Qed.

Lemma render_inv (evs : list (gmap string string)) :
  forall acc lines,
    SuperJudge.render evs acc = Ok lines ->
    exists ls, lines = acc ++ ls /\ Forall2 renders evs ls.
Proof.
  induction evs as [|ev evs IH]; intros acc lines; simpl.
  - intros [= <-]. exists []. rewrite app_nil_r. split; [reflexivity|constructor].
  - destruct (SuperJudge.line ev) as [l|e] eqn:El; simpl; [|discriminate].
    intros H. apply IH in H as (ls & -> & Hls).
    exists (l :: ls). rewrite <- app_assoc. split; [reflexivity|].
    constructor; [apply line_renders, El|exact Hls].
Qed.

(** Each notification of a completed evaluation adds one line at the end
    of the report (the first one replaces the sentinel), and a
    notification of any other event leaves the report as it is. *)
Theorem notify_adds_one_line (sender : loc) (data : gmap string string)
    (o : SuperJudge.t) (l report : string) :
  renders data l ->
  SuperJudge.final_verdict o = Ok report ->
  SuperJudge.final_verdict (SuperJudge.notify sender "evaluation_done" data o)
  = Ok match SuperJudge._evaluations o with
       | [] => l
       | _ :: _ => report +:+ Py.NL +:+ l
       end
  /\ forall event,
       event <> "evaluation_done" ->
       SuperJudge.final_verdict (SuperJudge.notify sender event data o) = Ok report.
Proof.
  intros Hl Hrep. split.
  - rewrite notify_evaluation_done.
    unfold SuperJudge.final_verdict in Hrep.
    destruct (SuperJudge._evaluations o) as [|ev evs] eqn:E.
    + rewrite (final_verdict_lines (extend [data] o) [l]); [reflexivity|].
      simpl. rewrite E. repeat constructor. exact Hl.
    + destruct (SuperJudge.render (ev :: evs) []) as [lines|e] eqn:R; [|discriminate].
      simpl in Hrep. injection Hrep as <-.
      apply render_inv in R as (ls & -> & Hls).
      destruct ls as [|y ls]; [inversion Hls|].
      rewrite (final_verdict_lines (extend [data] o) ((y :: ls) ++ [l])).
      * change ([] ++ y :: ls) with (y :: ls).
        rewrite <- (join_snoc Py.NL (y :: ls) l) by discriminate. reflexivity.
      * unfold extend. cbn [SuperJudge._evaluations]. rewrite E.
        apply Forall2_app; [exact Hls|].
        repeat constructor. exact Hl.
  - intros event Hne. unfold SuperJudge.notify.
    apply String.eqb_neq in Hne. rewrite Hne. exact Hrep.
Qed.

Lemma notify_adds_one_line_witness :
  let o := SuperJudge.mk silent_kernel "SuperJudge" [0; 1]
             [verdict "1" "Judge1" "Looks fine."] None in
  renders (verdict "2" "Judge2" "Poor.") "Judge2 => Poor."
  /\ SuperJudge.final_verdict o = Ok "Judge1 => Looks fine."
  /\ SuperJudge.final_verdict
       (SuperJudge.notify 1 "evaluation_done" (verdict "2" "Judge2" "Poor.") o)
     = Ok match SuperJudge._evaluations o with
          | [] => "Judge2 => Poor."
          | _ :: _ => "Judge1 => Looks fine." +:+ Py.NL +:+ "Judge2 => Poor."
          end
  /\ forall event,
       event <> "evaluation_done" ->
       SuperJudge.final_verdict
         (SuperJudge.notify 1 event (verdict "2" "Judge2" "Poor.") o)
       = Ok "Judge1 => Looks fine.".
Proof.
  intros o.
  assert (H1 : renders (verdict "2" "Judge2" "Poor.") "Judge2 => Poor.")
    by apply renders_verdict.
  assert (H2 : SuperJudge.final_verdict o = Ok "Judge1 => Looks fine.") by reflexivity.
  split; [exact H1|]. split; [exact H2|].
  exact (notify_adds_one_line 1 _ o _ _ H1 H2).
Defined.

Lemma render_until (good : list (gmap string string)) (ls : list string)
    (bad : gmap string string) (rest : list (gmap string string)) (e : exn) :
  Forall2 renders good ls ->
  SuperJudge.line bad = Err e ->
  forall acc, SuperJudge.render (good ++ bad :: rest) acc = Err e.
Proof.
  intros Hgood Hbad.
  induction Hgood as [|ev l good ls Hev _ IH]; intros acc; simpl.
  - rewrite Hbad. reflexivity.
  - apply line_renders in Hev. rewrite Hev. simpl. apply IH.
Qed.

(** A collected dict without the key judge_name, or with it and without
    the key result, makes [final_verdict] raise a [KeyError] for that key:
    the report is not rendered in part. *)
Theorem final_verdict_missing_key (o : SuperJudge.t)
    (good : list (gmap string string)) (ls : list string)
    (bad : gmap string string) (rest : list (gmap string string)) :
  SuperJudge._evaluations o = good ++ bad :: rest ->
  Forall2 renders good ls ->
  (bad !! "judge_name" = None ->
   SuperJudge.final_verdict o = Err (KeyError "judge_name"))
  /\ (is_Some (bad !! "judge_name") -> bad !! "result" = None ->
      SuperJudge.final_verdict o = Err (KeyError "result")).
Proof.
  intros E Hgood.
  assert (G : forall e, SuperJudge.line bad = Err e -> SuperJudge.final_verdict o = Err e).
  { intros e He. unfold SuperJudge.final_verdict. rewrite E.
    destruct (good ++ bad :: rest) as [|x xs] eqn:Ex.
    - destruct good; discriminate Ex.
    - rewrite <- Ex, (render_until good ls bad rest e Hgood He). reflexivity. }
  split.
  - intros Hn. apply G. unfold SuperJudge.line, SuperJudge.getitem. rewrite Hn.
    reflexivity.
  - intros [n Hn] Hr. apply G. unfold SuperJudge.line, SuperJudge.getitem.
    rewrite Hn. simpl. rewrite Hr. reflexivity.
Qed.

Lemma final_verdict_missing_key_witness :
  let bad : gmap string string := <["judge_name" := "Judge2"]> ∅ in
  let o := SuperJudge.mk silent_kernel "SuperJudge" []
             [verdict "1" "Judge1" "Looks fine."; bad] None in
  SuperJudge._evaluations o = [verdict "1" "Judge1" "Looks fine."] ++ bad :: []
  /\ Forall2 renders [verdict "1" "Judge1" "Looks fine."] ["Judge1 => Looks fine."]
  /\ (bad !! "judge_name" = None ->
      SuperJudge.final_verdict o = Err (KeyError "judge_name"))
  /\ (is_Some (bad !! "judge_name") -> bad !! "result" = None ->
      SuperJudge.final_verdict o = Err (KeyError "result")).
Proof.
  intros bad o.
  assert (H1 : SuperJudge._evaluations o
               = [verdict "1" "Judge1" "Looks fine."] ++ bad :: []) by reflexivity.
  assert (H2 : Forall2 renders [verdict "1" "Judge1" "Looks fine."]
                 ["Judge1 => Looks fine."]).
  { repeat constructor. apply renders_verdict. }
  split; [exact H1|]. split; [exact H2|].
  exact (final_verdict_missing_key o _ _ bad [] H1 H2).
Defined.

(** A coordinator that holds such a dict cannot complete an [evaluate]:
    when all its sub-judges have answered, the plan renders the report
    and the [KeyError] comes out of [evaluate]. *)
Theorem evaluate_raises_on_malformed_verdict (sched : list nat) (self : loc)
    (prompt : string) (h : Heap) (o : SuperJudge.t)
    (good : list (gmap string string)) (ls : list string)
    (bad : gmap string string) (rest : list (gmap string string)) :
  super_judges h !! self = Some o ->
  SuperJudge._evaluations o = good ++ bad :: rest ->
  Forall2 renders good ls ->
  bad !! "judge_name" = None \/ bad !! "result" = None ->
  exists e, snd (SuperJudge_evaluate sched self prompt h) = Err e.
Proof.
  intros Ho E Hgood Hbad.
  assert (Hline : exists e, SuperJudge.line bad = Err e).
  { unfold SuperJudge.line, SuperJudge.getitem.
    destruct (bad !! "judge_name") as [n|] eqn:Hn; simpl; [|eauto].
    destruct Hbad as [Hb|Hb]; [discriminate|]. rewrite Hb. simpl. eauto. }
  destruct Hline as [e He].
  destruct (SuperJudge_evaluate_appends sched self prompt h self o Ho) as (vs & Hvs & _).
  rewrite SuperJudge_evaluate_heap in Hvs.
  unfold SuperJudge_evaluate, JudgeEvaluationPlan_run_plan.
  destruct (gather sched _ prompt h) as [h1 [[]|e']]; simpl in *; [|eauto].
  unfold SuperJudge_final_verdict. rewrite Hvs.
  unfold SuperJudge.final_verdict. simpl. rewrite E, <- app_assoc. simpl.
  destruct (good ++ bad :: rest ++ vs) as [|x xs] eqn:Ex.
  { destruct good; discriminate Ex. }
  rewrite <- Ex, (render_until good ls bad (rest ++ vs) e Hgood He). simpl. eauto.
Qed.

Lemma evaluate_raises_on_malformed_verdict_witness :
  let k := replying_kernel "Looks fine." in
  let bad : gmap string string := <["judge_id" := "9"]> ∅ in
  let o := SuperJudge.mk k "SuperJudge" [0] [bad] None in
  let h := mkHeap [registered k 0 judge_a] [o] 0 in
  super_judges h !! 0 = Some o
  /\ SuperJudge._evaluations o = [] ++ bad :: []
  /\ Forall2 renders [] []
  /\ (bad !! "judge_name" = None \/ bad !! "result" = None)
  /\ exists e, snd (SuperJudge_evaluate [] 0 "Evaluate: hello" h) = Err e.
Proof.
  intros k bad o h.
  assert (H1 : super_judges h !! 0 = Some o) by reflexivity.
  assert (H2 : SuperJudge._evaluations o = [] ++ bad :: []) by reflexivity.
  assert (H3 : Forall2 renders [] []) by constructor.
  assert (H4 : bad !! "judge_name" = None \/ bad !! "result" = None)
    by (left; reflexivity).
  split; [exact H1|]. split; [exact H2|]. split; [exact H3|]. split; [exact H4|].
  exact (evaluate_raises_on_malformed_verdict [] 0 "Evaluate: hello" h o [] [] bad []
           H1 H2 H3 H4).
Defined.

(** ** The result text of an evaluation *)

Lemma lstrip_chars_head (l : list ascii) :
  Py.lstrip_chars l = []
  \/ exists c l', Py.lstrip_chars l = c :: l' /\ Py.isspace c = false.
Proof.
  induction l as [|c l IH]; simpl; [left; reflexivity|].
  destruct (Py.isspace c) eqn:E; [exact IH|]. right. eauto.
Qed.

Lemma lstrip_chars_fixed (c : ascii) (l : list ascii) :
  Py.isspace c = false -> Py.lstrip_chars (c :: l) = c :: l.
Proof. intros E. simpl. rewrite E. reflexivity. Qed.

Lemma lstrip_chars_idem (l : list ascii) :
  Py.lstrip_chars (Py.lstrip_chars l) = Py.lstrip_chars l.
Proof.
  destruct (lstrip_chars_head l) as [-> | (c & l' & -> & E)]; [reflexivity|].
  apply lstrip_chars_fixed, E.
Qed.

Lemma lstrip_chars_snoc (l : list ascii) (c : ascii) :
  Py.isspace c = false -> exists x, Py.lstrip_chars (l ++ [c]) = x ++ [c].
Proof.
  intros E. induction l as [|d l IH]; simpl.
  - rewrite E. exists []. reflexivity.
  - destruct (Py.isspace d); [exact IH|]. exists (d :: l). reflexivity.
Qed.

(** Stripping the right end keeps a first character that is no space. *)
Lemma rstrip_keeps_head (c : ascii) (l : list ascii) :
  Py.isspace c = false ->
  exists x, rev (Py.lstrip_chars (rev (c :: l))) = c :: x.
Proof.
  intros E. revert c E. induction l as [|d l IH] using rev_ind; intros c E.
  - simpl. rewrite E. exists []. reflexivity.
  - change (c :: l ++ [d]) with ((c :: l) ++ [d]).
    rewrite rev_app_distr. simpl rev at 2. simpl app at 1.
    simpl Py.lstrip_chars. destruct (Py.isspace d).
    + apply IH, E.
    + simpl. rewrite rev_app_distr, rev_involutive. simpl. eauto.
Qed.

Lemma strip_chars_cases (l : list ascii) :
  let s := rev (Py.lstrip_chars (rev (Py.lstrip_chars l))) in
  (Forall (fun c => Py.isspace c = true) l /\ s = [])
  \/ (exists c x, s = c :: x /\ Py.isspace c = false
                  /\ Exists (fun c => Py.isspace c = false) l).
Proof.
  intros s. subst s. induction l as [|d l IH].
  - left. split; [constructor|reflexivity].
  - destruct (Py.isspace d) eqn:E.
    + assert (R : Py.lstrip_chars (d :: l) = Py.lstrip_chars l)
        by (simpl; rewrite E; reflexivity).
      rewrite R.
      destruct IH as [[Hall Hs] | (c & x & Hs & Hc & Hex)].
      * left. split; [constructor; assumption|exact Hs].
      * right. exists c, x. split; [exact Hs|]. split; [exact Hc|].
        apply Exists_cons. right. exact Hex.
    + right. rewrite (lstrip_chars_fixed d l E).
      destruct (rstrip_keeps_head d l E) as [x Hx].
      exists d, x. split; [exact Hx|]. split; [exact E|].
      apply Exists_cons. left. exact E.
Qed.

Lemma strip_idem (s : string) : Py.strip (Py.strip s) = Py.strip s.
Proof.
  unfold Py.strip. rewrite list_ascii_of_string_of_list_ascii.
  set (l := list_ascii_of_string s).
  destruct (strip_chars_cases l) as [[_ E] | (c & x & E & Hc & _)].
  - rewrite E. reflexivity.
  - f_equal.
    assert (R : rev (Py.lstrip_chars (rev (rev (Py.lstrip_chars (rev (Py.lstrip_chars l))))))
                = rev (Py.lstrip_chars (rev (Py.lstrip_chars l)))).
    { rewrite rev_involutive, lstrip_chars_idem. reflexivity. }
    rewrite E at 1. rewrite (lstrip_chars_fixed c x Hc), <- E. exact R.
Qed.

Lemma strip_truthy (s : string) :
  Py.truthy (Py.strip s) = true
  <-> Exists (fun c => Py.isspace c = false) (list_ascii_of_string s).
Proof.
  unfold Py.strip. set (l := list_ascii_of_string s).
  destruct (strip_chars_cases l) as [[Hall E] | (c & x & E & Hc & Hex)]; rewrite E.
  - split; [discriminate|]. intros Hex. exfalso.
    apply Exists_exists in Hex as (c & Hin & Hc).
    rewrite Forall_forall in Hall. rewrite (Hall c Hin) in Hc. discriminate.
  - split; [intros _; exact Hex|reflexivity].
Qed.

Lemma list_ascii_of_string_app (a b : string) :
  list_ascii_of_string (a +:+ b) = list_ascii_of_string a ++ list_ascii_of_string b.
Proof.
  induction a as [|x a IH]; [reflexivity|].
  change (String x a +:+ b) with (String x (a +:+ b)). simpl. rewrite IH. reflexivity.
Qed.

(** The loop keeps the contents of the visible messages, in order. *)
Lemma collect_visible (msgs : list SK.ChatMessageContent) :
  forall acc,
    ConcreteJudge.collect msgs acc = acc ++ map SK.content (List.filter visible msgs).
Proof.
  induction msgs as [|msg msgs IH]; intros acc; simpl.
  - rewrite app_nil_r. reflexivity.
  - unfold visible at 1.
    destruct (existsb ConcreteJudge.is_function_item (SK.items msg)); simpl.
    + apply IH.
    + destruct (Py.truthy (Py.strip (SK.content msg))); simpl.
      * rewrite IH, <- app_assoc. reflexivity.
      * apply IH.
Qed.

Lemma join_truthy (texts : list string) :
  texts <> [] ->
  Forall (fun t => Py.truthy (Py.strip t) = true) texts ->
  Py.truthy (Py.strip (Py.join Py.NL texts)) = true.
Proof.
  intros Hne Hall. destruct texts as [|t texts]; [congruence|].
  inversion Hall as [|? ? Ht _]; subst.
  apply strip_truthy. apply strip_truthy in Ht.
  destruct texts as [|u texts]; [exact Ht|].
  change (Py.join Py.NL (t :: u :: texts))
    with (t +:+ Py.NL +:+ Py.join Py.NL (u :: texts)).
  rewrite list_ascii_of_string_app. apply Exists_app. left. exact Ht.
Qed.

(** The recorded result is the newline-join of the contents of the
    visible messages, in the order received, stripped at its two ends
    only; when no message is visible it is the marker of no output. *)
Theorem result_is_stripped_join (msgs : list SK.ChatMessageContent) :
  ConcreteJudge.result_str msgs
  = match map SK.content (List.filter visible msgs) with
    | [] => "[No output from LLM]"
    | texts => Py.strip (Py.join Py.NL texts)
    end.
Proof.
  unfold ConcreteJudge.result_str. rewrite collect_visible. simpl.
  destruct (map SK.content (List.filter visible msgs)) as [|t texts] eqn:E;
    [reflexivity|].
  unfold Py.or_else. rewrite join_truthy; [reflexivity|discriminate|].
  rewrite <- E. apply Forall_forall. intros x Hx.
  apply list_elem_of_In, in_map_iff in Hx as (msg & <- & Hmsg).
  apply filter_In in Hmsg as [_ Hv].
  unfold visible in Hv. apply andb_true_iff in Hv as [_ Hv]. exact Hv.
Qed.

(** The recorded result is never empty and has no whitespace at either
    end, whatever the LLM answered. *)
Theorem result_is_nonempty_and_trimmed (msgs : list SK.ChatMessageContent) :
  ConcreteJudge.result_str msgs <> "" /\ trimmed (ConcreteJudge.result_str msgs).
Proof.
  unfold ConcreteJudge.result_str, Py.or_else, trimmed.
  destruct (Py.truthy (Py.strip (Py.join Py.NL (ConcreteJudge.collect msgs []))))
    eqn:E.
  - split; [|apply strip_idem].
    intros H. rewrite H in E. discriminate E.
  - split; [discriminate|reflexivity].
Qed.

(** ** The tasks that a failed plan leaves running *)


(** ** Registration *)

(** [register_judge] does not look for duplicates and [evaluate] runs
    every entry of the list: a successful [evaluate] on a coordinator
    whose sub-judges are bound to it collects one verdict for each
    registration, so a judge registered twice is evaluated and reported
    twice. *)
Theorem evaluate_collects_one_verdict_per_registration (sched : list nat)
    (self : loc) (prompt : string) (h : Heap) (o : SuperJudge.t) :
  super_judges h !! self = Some o ->
  (forall j, In j (SuperJudge._judges o) ->
     exists cj, concrete_judges h !! j = Some cj
                /\ ConcreteJudge.mediator cj = Some self) ->
  is_Ok (snd (SuperJudge_evaluate sched self prompt h)) = true ->
  exists vs,
    super_judges (fst (SuperJudge_evaluate sched self prompt h)) !! self
      = Some (extend vs o)
    /\ map verdict_judge vs
       ≡ₚ map (fun j => match concrete_judges h !! j with
                        | Some cj => judge_key (ConcreteJudge.judge_data cj)
                        | None => (None, None)
                        end) (SuperJudge._judges o).
Proof.
  intros Ho Hreg Hok.
  destruct (SuperJudge_evaluate_Ok sched self prompt h o Ho Hok) as (h' & Hrun & ->).
  set (order := completion_order _ sched _) in Hrun.
  assert (Hperm : order ≡ₚ SuperJudge._judges o).
  { apply completion_order_Permutation. reflexivity. }
  apply (run_tasks_registered order self) in Hrun as (_ & vs & Hss & _ & Hvs).
  - exists vs. split.
    + rewrite Hss, list_lookup_alter_eq, Ho. reflexivity.
    + rewrite <- Hperm. apply reflexive_eq.
      specialize (Hvs eq_refl). clear - Hvs.
      induction Hvs as [|j v order vs (cj & t & res & Hcj & _ & ->) _ IH]; simpl;
        [reflexivity|].
      rewrite IH, Hcj. reflexivity.
  - intros j Hj. apply Hreg, list_elem_of_In. rewrite <- Hperm.
    apply list_elem_of_In, Hj.
Qed.

Lemma evaluate_collects_one_verdict_per_registration_witness :
  let k := replying_kernel "Looks fine." in
  let h0 := mkHeap [ConcreteJudge.__init__ judge_a k] [SuperJudge.__init__ k "A"] 0 in
  let h := SuperJudge_register_judge 0 0 (SuperJudge_register_judge 0 0 h0) in
  let o := SuperJudge.mk k "A" [0; 0] [] None in
  super_judges h !! 0 = Some o
  /\ (forall j, In j (SuperJudge._judges o) ->
        exists cj, concrete_judges h !! j = Some cj
                   /\ ConcreteJudge.mediator cj = Some 0)
  /\ is_Ok (snd (SuperJudge_evaluate [] 0 "Evaluate: hello" h)) = true
  /\ exists vs,
       super_judges (fst (SuperJudge_evaluate [] 0 "Evaluate: hello" h)) !! 0
         = Some (extend vs o)
       /\ map verdict_judge vs
          ≡ₚ map (fun j => match concrete_judges h !! j with
                           | Some cj => judge_key (ConcreteJudge.judge_data cj)
                           | None => (None, None)
                           end) [0; 0].
Proof.
  intros k h0 h o.
  assert (H1 : super_judges h !! 0 = Some o) by reflexivity.
  assert (H2 : forall j, In j (SuperJudge._judges o) ->
            exists cj, concrete_judges h !! j = Some cj
                       /\ ConcreteJudge.mediator cj = Some 0).
  { intros j [<-|[<-|[]]]; eexists; split; reflexivity. }
  assert (H3 : is_Ok (snd (SuperJudge_evaluate [] 0 "Evaluate: hello" h)) = true)
    by (vm_compute; reflexivity).
  split; [exact H1|]. split; [exact H2|]. split; [exact H3|].
  exact (evaluate_collects_one_verdict_per_registration [] 0 "Evaluate: hello" h o
           H1 H2 H3).
Defined.

(** ** Construction of the models, in full *)


(** The judges of a constructed [Assembly]: there are none, and the list
    that was passed is the empty list. *)
Lemma Assembly_init_no_judges (HttpUrl : string -> bool) (args : Assembly.args)
    (a : Assembly.t) :
  Assembly.init HttpUrl args = Ok a ->
  Assembly.arg_judges args = Some [] /\ Assembly.judges a = [].
Proof.
  intros H. apply Assembly_init_Valid in H as (_ & Ej & _).
  apply required_Valid in Ej as (jas & Hjas & Hj).
  apply validate_judges_Valid in Hj.
  destruct Hj as [|ja j jas js Hja _]; [auto|].
  exfalso. exact (Judge_init_not_Ok HttpUrl ja j Hja).
Qed.

(** The validator of [model] raises on every URL, so no [Judge] is
    constructed, and an [Assembly] is constructed exactly from a present
    id, a present list of judges that is empty, and a present list of
    roles of at most 60 characters each: a constructed panel has no
    judge. *)
Theorem constructed_panel_has_no_judges (HttpUrl : string -> bool)
    (args : Assembly.args) (a : Assembly.t) :
  Assembly.init HttpUrl args = Ok a
  <-> args = Assembly.mk_args (Some (Assembly.id a)) (Some []) (Some (Assembly.roles a))
      /\ Assembly.judges a = []
      /\ Forall (fun role => Py.len role <= 60) (Assembly.roles a).
Proof.
  split.
  - intros H. destruct (Assembly_init_no_judges HttpUrl args a H) as [Hjas Hjs].
    apply Assembly_init_Valid in H as (Ei & _ & Er).
    apply required_Valid in Ei as (vi & Hi & [= ->]).
    apply required_Valid in Er as (vr & Hr & Hroles).
    apply validate_roles_Valid in Hroles as [-> Hroles].
    destruct args as [ai aj ar]. simpl in *. subst. auto.
  - intros (-> & Hjs & Hr). destruct a as [i js rs]. simpl in *. subst js.
    apply Assembly_init_Valid.
    cbn [Assembly.arg_id Assembly.arg_judges Assembly.arg_roles
         Assembly.id Assembly.judges Assembly.roles].
    split; [reflexivity|]. split; [reflexivity|].
    apply required_Valid. eexists. split; [reflexivity|].
    apply validate_roles_Valid. auto.
Qed.

(** * Properties of the web service *)

(** ** The queries *)

(** The text of the query of [list_judges] depends only on which of the
    two filters are given: what the caller passes goes into the
    parameters and never into the query text. *)
Theorem list_judges_query_text_is_fixed (name email name' email' : option string) :
  truthy_arg name = truthy_arg name' ->
  truthy_arg email = truthy_arg email' ->
  fst (list_judges_query name email) = fst (list_judges_query name' email').
Proof.
  intros Hn He. unfold list_judges_query. rewrite <- Hn, <- He.
  destruct (truthy_arg name), (truthy_arg email); reflexivity.
Qed.

Lemma list_judges_query_text_is_fixed_witness :
  truthy_arg (Some "ann") = truthy_arg (Some "x' OR 1=1 --")
  /\ truthy_arg None = truthy_arg (Some "")
  /\ fst (list_judges_query (Some "ann") None)
     = fst (list_judges_query (Some "x' OR 1=1 --") (Some "")).
Proof.
  split; [reflexivity|]. split; [reflexivity|].
  exact (list_judges_query_text_is_fixed (Some "ann") None (Some "x' OR 1=1 --")
           (Some "") eq_refl eq_refl).
Defined.

(** The parameters of [list_judges] are exactly the placeholders of its
    query, in their order, each bound to the filter between two percent
    signs; with no filter the query has no WHERE clause, and with one or
    two it has exactly one. *)
Theorem list_judges_query_binds_its_placeholders (name email : option string) :
  let '(query, parameters) := list_judges_query name email in
  map parameter_name parameters
  = List.filter (fun p => Py.contains p query) ["@judge_name"; "@judge_email"]
  /\ map parameter_value parameters
     = (if truthy_arg name then ["%" +:+ default "" name +:+ "%"] else [])
       ++ (if truthy_arg email then ["%" +:+ default "" email +:+ "%"] else [])
  /\ Py.contains "WHERE" query = truthy_arg name || truthy_arg email
  /\ Py.contains " OR " query = truthy_arg name && truthy_arg email.
Proof.
  unfold list_judges_query.
  destruct name as [[|c n]|], email as [[|d e]|]; repeat split; reflexivity.
Qed.

(** The same for [list_assemblies] and its one filter. *)
Theorem list_assemblies_query_binds_its_placeholder (role role' : option string) :
  let '(query, parameters) := list_assemblies_query role in
  (truthy_arg role = truthy_arg role' -> query = fst (list_assemblies_query role'))
  /\ map parameter_name parameters
     = List.filter (fun p => Py.contains p query) ["@role"]
  /\ map parameter_value parameters
     = (if truthy_arg role then ["%" +:+ default "" role +:+ "%"] else []).
Proof.
  unfold list_assemblies_query.
  destruct role as [[|c r]|]; simpl; (split; [|split; reflexivity]);
    intros <-; reflexivity.
Qed.

(** ** The document of an update *)

Lemma model_dump_lookup (judge : Judge.t) (key : string) :
  model_dump judge !! key
  = if decide (key = "id") then Some (Judge.id judge)
    else if decide (key = "name") then Some (Judge.name judge)
    else if decide (key = "model") then Some (Judge.model judge)
    else if decide (key = "metaprompt") then Some (Judge.metaprompt judge)
    else None.
Proof.
  unfold model_dump. rewrite !lookup_insert, lookup_empty.
  repeat case_decide; subst; try reflexivity; congruence.
Qed.

(** The document that [update_judge] writes has the four fields of the
    judge in the request and keeps every other key of the stored document;
    an update overrides an earlier one entirely, so that writing the same
    judge twice changes nothing more. *)
Theorem updated_judge_document (existing : gmap string string) (judge judge' : Judge.t) :
  (forall key, is_Some (model_dump judge !! key) ->
     updated_judge existing judge !! key = model_dump judge !! key)
  /\ (forall key, model_dump judge !! key = None ->
        updated_judge existing judge !! key = existing !! key)
  /\ updated_judge (updated_judge existing judge') judge = updated_judge existing judge.
Proof.
  unfold updated_judge, merge. repeat split.
  - intros key [v Hv]. rewrite Hv. apply lookup_union_Some_l. exact Hv.
  - intros key Hnone. apply lookup_union_r. exact Hnone.
  - apply map_eq. intros key. rewrite !lookup_union.
    rewrite (model_dump_lookup judge key), (model_dump_lookup judge' key).
    repeat case_decide; destruct (existing !! key); reflexivity.
Qed.

(** ** The evaluation endpoint *)

(** The endpoint answers 404 exactly when the item cannot be read, be it
    the database, the container or the item that is missing; nothing is
    built or evaluated then. *)
Theorem evaluate_judgment_not_found (db table : string) (HttpUrl : string -> bool)
    (k : SK.Kernel) (account : gmap string (gmap string (gmap string Assembly.args)))
    (sched : list nat) (evaluation : JudgeEvaluation) (h : Heap) :
  let missing :=
    account !! db = None
    \/ (exists database, account !! db = Some database /\ database !! table = None)
    \/ (exists database container,
           account !! db = Some database /\ database !! table = Some container
           /\ container !! evaluation_id evaluation = None) in
  ((exists detail,
       snd (evaluate_judgment db table HttpUrl k account sched evaluation h)
       = HTTPException 404 detail) <-> missing)
  /\ (missing ->
      evaluate_judgment db table HttpUrl k account sched evaluation h
      = (h, HTTPException 404
              ("Assembly '" +:+ evaluation_id evaluation +:+ "' not found."))).
Proof.
  intros missing.
  assert (Hfetch : fetch_assembly db table account (evaluation_id evaluation) = None
                   <-> missing).
  { unfold missing, fetch_assembly.
    destruct (account !! db) as [database|] eqn:Hd; [|split; auto].
    destruct (database !! table) as [container|] eqn:Hc.
    - destruct (container !! evaluation_id evaluation) eqn:Hi.
      + split; [discriminate|].
        intros [H|[(d & [= <-] & H)|(d & c & [= <-] & H1 & H2)]]; try discriminate.
        rewrite Hc in H. discriminate.
        rewrite Hc in H1. injection H1 as <-. rewrite Hi in H2. discriminate.
      + split; [|reflexivity]. intros _. right. right. eauto.
    - split; [|reflexivity]. intros _. right. left. eauto. }
  split.
  - rewrite <- Hfetch. unfold evaluate_judgment.
    destruct (fetch_assembly db table account (evaluation_id evaluation)) as [doc|].
    + split; [|discriminate]. intros [detail H]. exfalso.
      destruct (Assembly.init HttpUrl doc) as [a|e]; [|discriminate H].
      destruct (JudgeOrchestrator_run_evaluation k sched a _ h) as [h' [r|e]];
        discriminate H.
    + split; [reflexivity|]. intros _. eexists. reflexivity.
  - intros Hm. apply Hfetch in Hm. unfold evaluate_judgment. rewrite Hm. reflexivity.
Qed.

(** The report of a panel without judges. *)
Lemma empty_panel_report (k : SK.Kernel) (sched : list nat) (a : Assembly.t)
    (prompt : string) (h : Heap) :
  Assembly.judges a = [] ->
  snd (JudgeOrchestrator_run_evaluation k sched a prompt h)
  = Ok "[No evaluations received]".
Proof.
  intros Hj. rewrite run_evaluation_unfold, Hj. simpl.
  unfold SuperJudge_final_verdict, prepared. simpl.
  rewrite list_lookup_middle by reflexivity. reflexivity.
Qed.

(** A stored panel with a judge whose model is accepted as a URL cannot
    be evaluated: constructing the [Assembly] from the document raises
    the [AttributeError] of the validator of [model], before the [try] of
    the handler, so the request ends with that exception and with no
    response, and nothing is built or evaluated. *)
Theorem evaluate_judgment_stored_judge_raises (db table : string)
    (HttpUrl : string -> bool) (k : SK.Kernel)
    (account : gmap string (gmap string (gmap string Assembly.args)))
    (sched : list nat) (evaluation : JudgeEvaluation) (h : Heap)
    (doc : Assembly.args) (jas : list Judge.args) (ja : Judge.args) (m : string) :
  fetch_assembly db table account (evaluation_id evaluation) = Some doc ->
  Assembly.arg_judges doc = Some jas ->
  In ja jas ->
  Judge.arg_model ja = Some m ->
  HttpUrl m = true ->
  exists msg,
    evaluate_judgment db table HttpUrl k account sched evaluation h
    = (h, Unhandled (AttributeError msg)).
Proof.
  intros Hf Hjas Hin Hm Hu.
  pose proof (Assembly_init_raises HttpUrl doc jas ja m Hjas Hin Hm Hu) as Hinit.
  unfold evaluate_judgment. rewrite Hf, Hinit.
  eexists. reflexivity.
Qed.

Lemma evaluate_judgment_stored_judge_raises_witness :
  let account := account_with "mydb" "assemblies" "p1" scenario_panel_args in
  let evaluation := mk_JudgeEvaluation "p1" "Evaluate: hello" method_assembly in
  fetch_assembly "mydb" "assemblies" account (evaluation_id evaluation)
  = Some scenario_panel_args
  /\ Assembly.arg_judges scenario_panel_args = Some [scenario_judge_args]
  /\ In scenario_judge_args [scenario_judge_args]
  /\ Judge.arg_model scenario_judge_args = Some "https://x/m1"
  /\ (fun _ : string => true) "https://x/m1" = true
  /\ exists msg,
       evaluate_judgment "mydb" "assemblies" (fun _ => true)
         (replying_kernel "Looks fine.") account [] evaluation empty_heap
       = (empty_heap, Unhandled (AttributeError msg)).
Proof.
  intros account evaluation.
  assert (H1 : fetch_assembly "mydb" "assemblies" account (evaluation_id evaluation)
               = Some scenario_panel_args) by reflexivity.
  assert (H3 : In scenario_judge_args [scenario_judge_args]) by (left; reflexivity).
  split; [exact H1|]. split; [reflexivity|]. split; [exact H3|].
  split; [reflexivity|]. split; [reflexivity|].
  exact (evaluate_judgment_stored_judge_raises "mydb" "assemblies" (fun _ => true)
           (replying_kernel "Looks fine.") account [] evaluation empty_heap
           scenario_panel_args [scenario_judge_args] scenario_judge_args "https://x/m1"
           H1 eq_refl H3 eq_refl eq_refl).
Defined.

(** What the endpoint can answer.  A response is always the same one but
    for the id: status 200 with the sentinel of no evaluation as result,
    and it is given for a stored panel without judges; a stored document
    with a present id, an empty list of judges and roles of at most 60
    characters is answered so.  An [HTTPException] of the endpoint is
    always the 404: the [try] around [run_evaluation] never catches
    anything, since a panel that constructs has no judge to fail. *)
Theorem evaluate_judgment_answers_only_empty_panels (db table : string)
    (HttpUrl : string -> bool) (k : SK.Kernel)
    (account : gmap string (gmap string (gmap string Assembly.args)))
    (sched : list nat) (evaluation : JudgeEvaluation) (h : Heap) :
  let outcome := snd (evaluate_judgment db table HttpUrl k account sched evaluation h) in
  let stored := fetch_assembly db table account (evaluation_id evaluation) in
  (forall code body,
     outcome = JSONResponse code body ->
     code = 200
     /\ body = mk_SuccessMessage "Evaluation Complete" "Judging completed successfully."
                 (<["assembly_id" := evaluation_id evaluation]>
                    (<["result" := "[No evaluations received]"]> ∅))
     /\ exists doc, stored = Some doc /\ Assembly.arg_judges doc = Some [])
  /\ (forall i rs,
        stored = Some (Assembly.mk_args (Some i) (Some []) (Some rs)) ->
        Forall (fun role => Py.len role <= 60) rs ->
        exists body, outcome = JSONResponse 200 body)
  /\ forall code detail, outcome = HTTPException code detail -> code = 404.
Proof.
  intros outcome stored. subst outcome stored. unfold evaluate_judgment.
  destruct (fetch_assembly db table account (evaluation_id evaluation)) as [doc|];
    [|split; [discriminate|split; [discriminate|]]; intros code detail [= <- _];
      reflexivity].
  destruct (Assembly.init HttpUrl doc) as [a|e] eqn:Hinit.
  - destruct (Assembly_init_no_judges HttpUrl doc a Hinit) as [Hjas Hjs].
    pose proof (empty_panel_report k sched a (evaluation_prompt evaluation) h Hjs) as Hrep.
    destruct (JudgeOrchestrator_run_evaluation k sched a (evaluation_prompt evaluation) h)
      as [h' r].
    simpl in Hrep. subst r. simpl. split; [|split].
    + intros code body [= <- <-]. split; [reflexivity|]. split; [reflexivity|]. eauto.
    + intros i rs _ _. eexists. reflexivity.
    + discriminate.
  - simpl. split; [discriminate|]. split; [|discriminate].
    intros i rs [= ->] Hrs. exfalso.
    assert (Hok : Assembly.init HttpUrl (Assembly.mk_args (Some i) (Some []) (Some rs))
                  = Ok (Assembly.mk i [] rs)).
    { apply Assembly_init_Valid.
      cbn [Assembly.arg_id Assembly.arg_judges Assembly.arg_roles
           Assembly.id Assembly.judges Assembly.roles].
      split; [reflexivity|]. split; [reflexivity|].
      apply required_Valid. eexists. split; [reflexivity|].
      apply validate_roles_Valid. auto. }
    rewrite Hok in Hinit. discriminate Hinit.
Qed.
